(** * FCM broadcast server (server-python/main.py): token registry and dispatcher

    A shallow embedding of [TokenManager], [FCMService.send_message] and the
    [/send] handler [send_push], followed by the properties of the registry
    and of the broadcast operation.

    Modelling choices.
    - [self.tokens] is a Python [dict]: keys are unique and iteration follows
      insertion order.  It is an association list in insertion order; the
      uniqueness of the keys is the predicate [dict_ok], which every state
      built by the program satisfies ([reachable_dict_ok]).
    - Python [int] is [Z].
    - [datetime.now().isoformat()] reads a clock: the [n]-th read of a run
      returns [now n], and the state counts the reads.
    - [messaging.send] is the external provider: its reply is a function
      [fcm] of the messages handed over so far and of the current one; the
      state keeps those messages in [outbox].
    - A raised exception keeps the mutations done before it, so a computation
      maps a state to a result-or-exception and a state.
    - [logger] calls have no effect on the registry and are left out. *)

From Stdlib Require Import String List ZArith Bool Lia DecimalString.
Import ListNotations.
Open Scope string_scope.
Open Scope Z_scope.
Open Scope list_scope.

(** ** Python values reaching the server (decoded JSON) *)

#[local] Set Warnings "-register-all".
Inductive PyVal : Type :=
| PyNone
| PyBool (b : bool)
| PyInt (z : Z)
| PyStr (s : string)
| PyList (l : list PyVal)
| PyDict (d : list (string * PyVal)).

(** [bool(v)] *)
Definition truthy (v : PyVal) : bool :=
  match v with
  | PyNone => false
  | PyBool b => b
  | PyInt z => negb (z =? 0)
  | PyStr s => negb (s =? "")%string
  | PyList l => match l with [] => false | _ => true end
  | PyDict d => match d with [] => false | _ => true end
  end.

(** [isinstance(v, str)] *)
Definition isinstance_str (v : PyVal) : bool :=
  match v with PyStr _ => true | _ => false end.

(** ** Insertion-ordered dictionaries with string keys *)

Module Dict.
Section Ops.
Context {V : Type}.

Definition t := list (string * V).

Definition keys (d : t) : list string := map fst d.
Definition values (d : t) : list V := map snd d.
Definition len (d : t) : Z := Z.of_nat (length d).

(** [d.get(k)] *)
Fixpoint get (k : string) (d : t) : option V :=
  match d with
  | [] => None
  | (k', v) :: d' => if (k' =? k)%string then Some v else get k d'
  end.

(** [k in d] *)
Definition contains (k : string) (d : t) : bool :=
  match get k d with Some _ => true | None => false end.

(** [d[k] = v]: replaces the value in place, or appends a new entry *)
Fixpoint set (k : string) (v : V) (d : t) : t :=
  match d with
  | [] => [(k, v)]
  | (k', v') :: d' =>
      if (k' =? k)%string then (k', v) :: d' else (k', v') :: set k v d'
  end.

(** mutation of the object stored under [k] (attribute assignment through
    [d[k]]); [None] is Python's [KeyError] *)
Fixpoint modify (k : string) (f : V -> V) (d : t) : option t :=
  match d with
  | [] => None
  | (k', v) :: d' =>
      if (k' =? k)%string then Some ((k', f v) :: d')
      else option_map (cons (k', v)) (modify k f d')
  end.

(** [del d[k]]; [None] is Python's [KeyError] *)
Fixpoint del (k : string) (d : t) : option t :=
  match d with
  | [] => None
  | (k', v) :: d' =>
      if (k' =? k)%string then Some d'
      else option_map (cons (k', v)) (del k d')
  end.
End Ops.
Arguments t : clear implicits.
End Dict.

(** membership test on a list of strings, and absence of repetitions *)
Fixpoint mem_str (k : string) (l : list string) : bool :=
  match l with
  | [] => false
  | k' :: l' => (k' =? k)%string || mem_str k l'
  end.

Fixpoint nodupb (l : list string) : bool :=
  match l with
  | [] => true
  | k :: l' => negb (mem_str k l') && nodupb l'
  end.

(** the keys of a dictionary are pairwise distinct *)
Definition dict_ok {V : Type} (d : Dict.t V) : Prop :=
  nodupb (Dict.keys d) = true.

(** ** Data model *)

(** [@dataclass FCMToken] *)
Record FCMToken : Type := mkFCMToken {
  token : string;
  registered_at : string;
  last_active : string;
  successful_sends : Z;
  failed_sends : Z;
  is_active : bool
}.

(** [FCMToken(token=.., registered_at=.., last_active=..)] with the defaults *)
Definition new_FCMToken (tok reg last : string) : FCMToken :=
  mkFCMToken tok reg last 0 0 true.

Definition set_last_active (o : FCMToken) (v : string) : FCMToken :=
  mkFCMToken (token o) (registered_at o) v (successful_sends o)
             (failed_sends o) (is_active o).
Definition set_is_active (o : FCMToken) (v : bool) : FCMToken :=
  mkFCMToken (token o) (registered_at o) (last_active o) (successful_sends o)
             (failed_sends o) v.
Definition set_successful_sends (o : FCMToken) (v : Z) : FCMToken :=
  mkFCMToken (token o) (registered_at o) (last_active o) v
             (failed_sends o) (is_active o).
Definition set_failed_sends (o : FCMToken) (v : Z) : FCMToken :=
  mkFCMToken (token o) (registered_at o) (last_active o) (successful_sends o)
             v (is_active o).

(** the message built by [send_message] and handed to [messaging.send] *)
Record Message : Type := mkMessage {
  msg_title : PyVal;
  msg_body : PyVal;
  msg_data : Dict.t string;
  msg_token : string
}.

(** what [messaging.send] does: it returns a response, or raises *)
Inductive FcmReply : Type :=
| Delivered (response : string)
| InvalidArgumentError
| UnregisteredError
| OtherError (text : string).

(** the result dictionaries of [send_message]; an absent key is [None] *)
Record SendResult : Type := mkSendResult {
  res_success : bool;
  res_response : option string;
  res_error : option string;
  res_token : option string;
  res_error_code : option string
}.

(** the dictionary returned by [get_stats] *)
Record Stats : Type := mkStats {
  total_tokens : Z;
  active_tokens : Z;
  inactive_tokens : Z;
  total_successful_sends : Z;
  total_failed_sends : Z
}.

(** the dictionary returned by [register_token] *)
Record RegisterResult : Type := mkRegisterResult {
  is_new : bool;
  token_count : Z
}.

(** JSON bodies of the [/send] responses *)
Inductive Body : Type :=
| ErrorBody (error : string)
| BroadcastBody (sent failed : Z) (message : string)
                (successes failures : list SendResult).

Definition Response : Type := (Body * Z)%type.

Inductive Exn : Type :=
| ValueError (msg : string)
| KeyError (k : string)
| AttributeError
| HTTPException (code : Z).

(** ** State and computations *)

Record World : Type := mkWorld {
  tokens : Dict.t FCMToken;     (* token_manager.tokens *)
  max_tokens : Z;               (* token_manager.max_tokens *)
  clock : nat;                  (* reads of datetime.now() so far *)
  outbox : list Message         (* messages handed to messaging.send *)
}.

Definition with_tokens (w : World) (d : Dict.t FCMToken) : World :=
  mkWorld d (max_tokens w) (clock w) (outbox w).

(** [TokenManager()] at start-up, for a given [MAX_TOKENS] *)
Definition init_world (maxtok : Z) : World := mkWorld [] maxtok 0%nat [].

Definition M (A : Type) : Type := World -> (Exn + A) * World.

Definition ret {A : Type} (a : A) : M A := fun w => (inr a, w).

Definition bind {A B : Type} (m : M A) (f : A -> M B) : M B :=
  fun w => match m w with
           | (inl e, w') => (inl e, w')
           | (inr a, w') => f a w'
           end.

Definition raise {A : Type} (e : Exn) : M A := fun w => (inl e, w).

(** [try: m  except Exception as e: h e] *)
Definition try_except {A : Type} (m : M A) (h : Exn -> M A) : M A :=
  fun w => match m w with
           | (inl e, w') => h e w'
           | (inr a, w') => (inr a, w')
           end.

Declare Scope py_scope.
Delimit Scope py_scope with py.
Notation "x <- c1 ;; c2" := (bind c1 (fun x => c2))
  (at level 61, c1 at next level, right associativity) : py_scope.
Notation "c1 ;; c2" := (bind c1 (fun _ => c2))
  (at level 61, right associativity) : py_scope.
Open Scope py_scope.

(** [for x in l: body x] *)
Fixpoint for_each {A : Type} (l : list A) (body : A -> M unit) : M unit :=
  match l with
  | [] => ret tt
  | x :: l' => body x ;; for_each l' body
  end.

(** [for x in l: acc.append(f x)], started with the list [acc] *)
Fixpoint collect {A B : Type} (l : list A) (f : A -> M B) (acc : list B)
  : M (list B) :=
  match l with
  | [] => ret acc
  | x :: l' => r <- f x ;; collect l' f (acc ++ [r])
  end.

Definition get_tokens : M (Dict.t FCMToken) := fun w => (inr (tokens w), w).
Definition get_max_tokens : M Z := fun w => (inr (max_tokens w), w).

(** [self.tokens[k] = v] *)
Definition setitem (k : string) (v : FCMToken) : M unit :=
  fun w => (inr tt, with_tokens w (Dict.set k v (tokens w))).

(** [self.tokens[k].<field> = ...] *)
Definition setattr (k : string) (f : FCMToken -> FCMToken) : M unit :=
  fun w => match Dict.modify k f (tokens w) with
           | Some d => (inr tt, with_tokens w d)
           | None => (inl (KeyError k), w)
           end.

(** [del self.tokens[k]] *)
Definition delitem (k : string) : M unit :=
  fun w => match Dict.del k (tokens w) with
           | Some d => (inr tt, with_tokens w d)
           | None => (inl (KeyError k), w)
           end.

(** ** The program *)

Section Server.
(** the clock and the push provider *)
Variable now : nat -> string.
Variable fcm : list Message -> Message -> FcmReply.

(** [datetime.now().isoformat()] *)
Definition datetime_now : M string :=
  fun w => (inr (now (clock w)),
            mkWorld (tokens w) (max_tokens w) (S (clock w)) (outbox w)).

(** [messaging.send(message)], with its exceptions as a value *)
Definition messaging_send (m : Message) : M FcmReply :=
  fun w => (inr (fcm (outbox w) m),
            mkWorld (tokens w) (max_tokens w) (clock w) (outbox w ++ [m])).

(** *** FCMService.send_message (lines 66-118) *)
Definition send_message (tok : string) (title body : PyVal)
           (data : option (Dict.t string)) : M SendResult :=
  let message_data := match data with
                      | Some (e :: d) => e :: d
                      | _ => []
                      end in
  ts <- datetime_now ;;
  let message_data :=
    Dict.set "server" "python-fcm" (Dict.set "timestamp" ts message_data) in
  let message := mkMessage title body message_data tok in
  reply <- messaging_send message ;;
  match reply with
  | Delivered response =>
      ret (mkSendResult true (Some response) None (Some tok) None)
  | InvalidArgumentError =>
      ret (mkSendResult false None (Some "Invalid message format")
                        (Some tok) (Some "INVALID_ARGUMENT"))
  | UnregisteredError =>
      ret (mkSendResult false None (Some "Token not registered")
                        (Some tok) (Some "UNREGISTERED"))
  | OtherError text =>
      ret (mkSendResult false None (Some text) (Some tok) (Some "UNKNOWN"))
  end.

(** *** TokenManager._cleanup_inactive_tokens (lines 178-188) *)
Definition _cleanup_inactive_tokens : M unit :=
  d <- get_tokens ;;
  let inactive_tokens :=
    map fst (filter (fun kv => negb (is_active (snd kv))) d) in
  for_each inactive_tokens (fun token_str => delitem token_str).

(** *** TokenManager.register_token (lines 128-153) *)
Definition register_str (tok : string) : M RegisterResult :=
  current_time <- datetime_now ;;
  d <- get_tokens ;;
  if Dict.contains tok d then
    setattr tok (fun o => set_last_active o current_time) ;;
    setattr tok (fun o => set_is_active o true) ;;
    d <- get_tokens ;;
    ret (mkRegisterResult false (Dict.len d))
  else
    maxtok <- get_max_tokens ;;
    (if maxtok <=? Dict.len d then _cleanup_inactive_tokens else ret tt) ;;
    setitem tok (new_FCMToken tok current_time current_time) ;;
    d <- get_tokens ;;
    ret (mkRegisterResult true (Dict.len d)).

Definition register_token (tok : PyVal) : M RegisterResult :=
  if negb (truthy tok) || negb (isinstance_str tok) then
    raise (ValueError "Invalid token provided")
  else
    match tok with
    | PyStr s => register_str s
    | _ => raise (ValueError "Invalid token provided")  (* isinstance guard *)
    end.

(** *** TokenManager.get_active_tokens (lines 155-157) *)
Definition get_active_tokens : M (list string) :=
  d <- get_tokens ;;
  ret (map token (filter is_active (Dict.values d))).

(** *** TokenManager.update_token_stats (lines 159-176) *)
Definition update_one (result : SendResult) : M unit :=
  d <- get_tokens ;;
  match res_token result with
  | None => ret tt                   (* [None in self.tokens] is false *)
  | Some token_str =>
      if Dict.contains token_str d then
        if res_success result then
          setattr token_str
            (fun o => set_successful_sends o (successful_sends o + 1)) ;;
          ts <- datetime_now ;;
          setattr token_str (fun o => set_last_active o ts)
        else
          setattr token_str
            (fun o => set_failed_sends o (failed_sends o + 1)) ;;
          let error_code := match res_error_code result with
                            | Some c => c
                            | None => ""
                            end in
          if mem_str error_code ["UNREGISTERED"; "INVALID_ARGUMENT"] then
            setattr token_str (fun o => set_is_active o false)
          else ret tt
      else ret tt
  end.

Definition update_token_stats (results : list SendResult) : M unit :=
  for_each results update_one.

(** *** TokenManager.get_stats (lines 190-202) *)
Definition sumZ (l : list Z) : Z := fold_left Z.add l 0.

Definition get_stats : M Stats :=
  d <- get_tokens ;;
  let active_count :=
    sumZ (map (fun _ => 1) (filter is_active (Dict.values d))) in
  let total_successful := sumZ (map successful_sends (Dict.values d)) in
  let total_failed := sumZ (map failed_sends (Dict.values d)) in
  ret (mkStats (Dict.len d) active_count (Dict.len d - active_count)
               total_successful total_failed).

(** *** TokenManager.remove_token (lines 203-211) *)
Definition remove_token (tok : string) : M bool :=
  d <- get_tokens ;;
  if Dict.contains tok d then delitem tok ;; ret true
  else ret false.

(** *** send_push (lines 364-421) *)

(** [data.get(key, default)] on the decoded request body *)
Definition py_get (data : PyVal) (key : string) (default : PyVal)
  : M PyVal :=
  match data with
  | PyDict d => ret (match Dict.get key d with
                     | Some v => v
                     | None => default
                     end)
  | _ => raise AttributeError
  end.

Definition str_of_len {A : Type} (l : list A) : string :=
  NilZero.string_of_uint (Nat.to_uint (length l)).

(** lines 378-414: the broadcast proper, once title and body are known *)
Definition broadcast (title body : PyVal) : M Response :=
  active_tokens <- get_active_tokens ;;
  match active_tokens with
  | [] => ret (ErrorBody "No active tokens to send to", 400)
  | _ :: _ =>
      results <- collect active_tokens
                   (fun tok => send_message tok title body None) [] ;;
      (* token_manager.update_token_stats(results) is commented out *)
      let successes := filter res_success results in
      let failures := filter (fun r => negb (res_success r)) results in
      ret (BroadcastBody (Z.of_nat (length successes))
             (Z.of_nat (length failures))
             ("Broadcast sent to " ++ str_of_len successes ++ " devices")
             successes failures, 200)
  end.

(** the handler; [request] is what [request.get_json()] returns or raises *)
Definition send_push (request : Exn + PyVal) : M Response :=
  try_except
    (data <- (match request with
              | inl e => raise e
              | inr v => ret v
              end) ;;
     if negb (truthy data) then
       ret (ErrorBody "No JSON data provided", 400)
     else
       body <- py_get data "body"
                 (PyStr "This is a test message from Python FCM server.") ;;
       title <- py_get data "title" (PyStr "Python Server Notification") ;;
       broadcast title body)
    (fun _ =>
       ret (ErrorBody "Internal server error while sending notifications",
            500)).

(** *** Runs of the server *)

Inductive Op : Type :=
| OpRegister (tok : PyVal)
| OpRemove (tok : string)
| OpUpdateStats (results : list SendResult)
| OpGetActive
| OpGetStats
| OpSend (request : Exn + PyVal).

Definition exec (w : World) (o : Op) : World :=
  match o with
  | OpRegister tok => snd (register_token tok w)
  | OpRemove tok => snd (remove_token tok w)
  | OpUpdateStats results => snd (update_token_stats results w)
  | OpGetActive => snd (get_active_tokens w)
  | OpGetStats => snd (get_stats w)
  | OpSend request => snd (send_push request w)
  end.

Definition run (ops : list Op) (w : World) : World := fold_left exec ops w.

(** the states the server can be in, for a configured maximum *)
Definition reachable (maxtok : Z) (w : World) : Prop :=
  exists ops, w = run ops (init_world maxtok).

End Server.

(** ** Vocabulary of the statements *)

(** the predicates of the two comprehensions over [self.tokens] *)
Definition entry_inactive (kv : string * FCMToken) : bool :=
  negb (is_active (snd kv)).
Definition entry_active (kv : string * FCMToken) : bool :=
  is_active (snd kv).

(** the state after one more read of the clock *)
Definition tick (w : World) : World :=
  mkWorld (tokens w) (max_tokens w) (S (clock w)) (outbox w).

(** the record written by a re-registration at time [t] *)
Definition refreshed (o : FCMToken) (t : string) : FCMToken :=
  mkFCMToken (token o) (registered_at o) t (successful_sends o)
             (failed_sends o) true.

(** the arguments [register_token] refuses *)
Definition invalid_token (tok : PyVal) : Prop :=
  tok = PyStr "" \/ isinstance_str tok = false.

(** the test [error_code in ['UNREGISTERED', 'INVALID_ARGUMENT']] *)
Definition deactivating (r : SendResult) : bool :=
  mem_str (match res_error_code r with Some c => c | None => "" end)
          ["UNREGISTERED"; "INVALID_ARGUMENT"].

(** the record left by one outcome, the clock being read as [t] *)
Definition recorded (r : SendResult) (o : FCMToken) (t : string) : FCMToken :=
  if res_success r then
    mkFCMToken (token o) (registered_at o) t (successful_sends o + 1)
               (failed_sends o) (is_active o)
  else
    mkFCMToken (token o) (registered_at o) (last_active o)
               (successful_sends o) (failed_sends o + 1)
               (if deactivating r then false else is_active o).

(** the operations that keep the record of [k] in the registry: result
    recording, removal of another identifier, the two read-only queries and
    a broadcast *)
Definition keeps_record (k : string) (o : Op) : Prop :=
  match o with
  | OpRegister _ => False
  | OpRemove k' => k' <> k
  | _ => True
  end.

Definition inactive_in (k : string) (w : World) : Prop :=
  exists o, Dict.get k (tokens w) = Some o /\ is_active o = false.

Definition not_active_in (k : string) (w : World) : Prop :=
  forall o, Dict.get k (tokens w) = Some o -> is_active o = false.

(** ** Sample runs *)

(** a clock that returns the number of its reads so far *)
Definition clock0 (n : nat) : string := NilZero.string_of_uint (Nat.to_uint n).

(** a provider that knows [tok-A] only *)
Definition fcm0 (sent : list Message) (m : Message) : FcmReply :=
  if (msg_token m =? "tok-A")%string then Delivered "projects/demo/messages/1"
  else UnregisteredError.

(** the result [send_message] builds on [UnregisteredError] *)
Definition unregistered_failure (k : string) : SendResult :=
  mkSendResult false None (Some "Token not registered") (Some k)
               (Some "UNREGISTERED").

Definition register_AB : list Op :=
  [OpRegister (PyStr "tok-A"); OpRegister (PyStr "tok-B")].

(** two active records, maximum two *)
Definition world_AB : World := run clock0 fcm0 register_AB (init_world 2).

(** [tok-A] inactive, [tok-B] active, maximum two *)
Definition world_A_inactive : World :=
  run clock0 fcm0
      (register_AB ++ [OpUpdateStats [unregistered_failure "tok-A"]])
      (init_world 2).

(** both records inactive, maximum two *)
Definition world_all_inactive : World :=
  run clock0 fcm0
      (register_AB ++ [OpUpdateStats [unregistered_failure "tok-A";
                                     unregistered_failure "tok-B"]])
      (init_world 2).

(** two active records although the maximum is one *)
Definition world_over : World := run clock0 fcm0 register_AB (init_world 1).

(** ** Vocabulary of the further properties *)

(** what the program keeps true of every stored entry: the record carries its
    own key, the key is not empty, the counters are not negative *)
Definition record_ok (kv : string * FCMToken) : Prop :=
  token (snd kv) = fst kv /\ fst kv <> ""
  /\ 0 <= successful_sends (snd kv) /\ 0 <= failed_sends (snd kv).

Definition registry_ok (d : Dict.t FCMToken) : Prop :=
  dict_ok d /\ Forall record_ok d.

(** the outcomes of a result list that refer to the identifier [k] *)
Definition outcome_for (k : string) (r : SendResult) : bool :=
  match res_token r with
  | Some k' => (k' =? k)%string
  | None => false
  end.

Definition successes_for (k : string) (rs : list SendResult) : Z :=
  Z.of_nat (length (filter (fun r => outcome_for k r && res_success r) rs)).

Definition failures_for (k : string) (rs : list SendResult) : Z :=
  Z.of_nat
    (length (filter (fun r => outcome_for k r && negb (res_success r)) rs)).

Definition deactivated_by (k : string) (rs : list SendResult) : bool :=
  existsb (fun r => outcome_for k r && negb (res_success r) && deactivating r)
          rs.

(** the outcomes that refer to some identifier stored in [d] *)
Definition outcome_in (d : Dict.t FCMToken) (r : SendResult) : bool :=
  match res_token r with
  | Some k => Dict.contains k d
  | None => false
  end.

(** the operations the HTTP routes perform on the registry: every one but
    [update_token_stats], whose only call is commented out *)
Definition served (o : Op) : Prop :=
  match o with
  | OpUpdateStats _ => False
  | _ => True
  end.

(** ** The other routes (lines 270-362 and 423-468) *)

(** The routes answer with [jsonify(...)]: the JSON document, as a Python
    value, and the status.  A route can meet one exception the registry never
    raises on strings: [TypeError], when [remove_token] is given a value that
    is not a string (an unhashable key in [token in self.tokens], or
    [token[:20]] on a number). *)
Module Routes.

Definition Response : Type := (PyVal * Z)%type.

Inductive RouteExn : Type :=
| Raised (e : Exn)
| TypeError.

Definition R (A : Type) : Type := World -> (RouteExn + A) * World.

Definition rret {A : Type} (a : A) : R A := fun w => (inr a, w).

Definition rbind {A B : Type} (m : R A) (f : A -> R B) : R B :=
  fun w => match m w with
           | (inl e, w') => (inl e, w')
           | (inr a, w') => f a w'
           end.

Definition rraise {A : Type} (e : RouteExn) : R A := fun w => (inl e, w).

(** a computation of the registry, run inside a route *)
Definition lift {A : Type} (m : M A) : R A :=
  fun w => match m w with
           | (inl e, w') => (inl (Raised e), w')
           | (inr a, w') => (inr a, w')
           end.

(** [try: m  except ...: h e] *)
Definition rtry {A : Type} (m : R A) (h : RouteExn -> R A) : R A :=
  fun w => match m w with
           | (inl e, w') => h e w'
           | (inr a, w') => (inr a, w')
           end.

Declare Scope route_scope.
Delimit Scope route_scope with route.
Notation "x <- c1 ;; c2" := (rbind c1 (fun x => c2))
  (at level 61, c1 at next level, right associativity) : route_scope.

(** [request.get_json()]: it returns the decoded body, or raises the HTTP
    error of a body it cannot decode (400 or 415) *)
Definition get_json (request : Z + PyVal) : R PyVal :=
  match request with
  | inl code => rraise (Raised (HTTPException code))
  | inr v => rret v
  end.

(** [{"success": False, "error": msg}] *)
Definition failure (msg : string) : PyVal :=
  PyDict [("success", PyBool false); ("error", PyStr msg)].

(** [TokenManager.remove_token] on whatever the request holds *)
Definition remove_token_any (tok : PyVal) : R bool :=
  match tok with
  | PyStr s => lift (remove_token s)
  | _ => rraise TypeError
  end.

(** the dictionary of [get_stats], as JSON *)
Definition stats_json (s : Stats) : PyVal :=
  PyDict [("total_tokens", PyInt (total_tokens s));
          ("active_tokens", PyInt (active_tokens s));
          ("inactive_tokens", PyInt (inactive_tokens s));
          ("total_successful_sends", PyInt (total_successful_sends s));
          ("total_failed_sends", PyInt (total_failed_sends s))].

(** [enumerate(l)], counting from [i] *)
Fixpoint enumerate {A : Type} (i : nat) (l : list A) : list (nat * A) :=
  match l with
  | [] => []
  | a :: l' => (i, a) :: enumerate (S i) l'
  end.

(** one entry of the [/tokens] listing *)
Definition token_info (io : nat * FCMToken) : PyVal :=
  let (i, o) := io in
  PyDict [("id", PyStr ("token_"
                        ++ NilZero.string_of_uint (Nat.to_uint (i + 1)))%string);
          ("registered_at", PyStr (registered_at o));
          ("last_active", PyStr (last_active o));
          ("successful_sends", PyInt (successful_sends o));
          ("failed_sends", PyInt (failed_sends o));
          ("is_active", PyBool (is_active o))].

Section Handlers.
Variable now : nat -> string.
Local Open Scope route_scope.

(** *** health_check (lines 270-280) *)
Definition health_check : R Response :=
  stats <- lift get_stats ;;
  ts <- lift (datetime_now now) ;;
  rret (PyDict [("status", PyStr "🐍 Python FCM server running");
                ("timestamp", PyStr ts);
                ("version", PyStr "2.0.0");
                ("registered_tokens", PyInt (total_tokens stats));
                ("active_tokens", PyInt (active_tokens stats))], 200).

(** *** register_token, the route (lines 282-320) *)
Definition register_token (request : Z + PyVal) : R Response :=
  rtry
    (data <- get_json request ;;
     if negb (truthy data) then
       rret (failure "No JSON data provided", 400)
     else
       tok <- lift (py_get data "token" PyNone) ;;
       if negb (truthy tok) then
         rret (failure "No token provided", 400)
       else
         result <- lift (register_token now tok) ;;
         rret (PyDict [("success", PyBool true);
                       ("message",
                        PyStr (if is_new result then "New token registered"
                               else "Token updated"));
                       ("total_tokens", PyInt (token_count result))], 200))
    (fun e =>
       match e with
       | Raised (ValueError msg) => rret (failure msg, 400)
       | _ => rret (failure "Internal server error", 500)
       end).

(** *** unregister_token (lines 322-362) *)
Definition unregister_token (request : Z + PyVal) : R Response :=
  rtry
    (data <- get_json request ;;
     if negb (truthy data) then
       rret (failure "No JSON data provided", 400)
     else
       tok <- lift (py_get data "token" PyNone) ;;
       if negb (truthy tok) then
         rret (failure "No token provided", 400)
       else
         removed <- remove_token_any tok ;;
         if (removed : bool) then
           d <- lift get_tokens ;;
           rret (PyDict [("success", PyBool true);
                         ("message", PyStr "Token unregistered successfully");
                         ("total_tokens", PyInt (Dict.len d))], 200)
         else
           rret (PyDict [("success", PyBool false);
                         ("error",
                          PyStr "User not found or already unregistered");
                         ("message", PyStr "Token not found in database")],
                 404))
    (fun _ =>
       rret (failure "Internal server error during unregistration", 500)).

(** *** get_tokens, the route (lines 423-451) *)
Definition get_tokens : R Response :=
  rtry
    (stats <- lift get_stats ;;
     d <- lift get_tokens ;;
     let tokens_info := map token_info (enumerate 0 (Dict.values d)) in
     rret (PyDict [("success", PyBool true);
                   ("stats", stats_json stats);
                   ("tokens", PyList tokens_info)], 200))
    (fun _ => rret (failure "Failed to fetch token information", 500)).

(** *** get_stats, the route (lines 453-468) *)
Definition get_stats : R Response :=
  rtry
    (stats <- lift get_stats ;;
     rret (PyDict [("success", PyBool true); ("stats", stats_json stats)],
           200))
    (fun _ => rret (failure "Failed to fetch statistics", 500)).

End Handlers.
End Routes.

(** what the [/tokens] listing shows of a record: everything but [token] *)
Definition anonymous (o : FCMToken) : string * string * Z * Z * bool :=
  (registered_at o, last_active o, successful_sends o, failed_sends o,
   is_active o).

(** [data.get("token")] on a JSON object *)
Definition token_of (d : Dict.t PyVal) : PyVal :=
  match Dict.get "token" d with
  | Some v => v
  | None => PyNone
  end.

(** what the route [/register] answers to the outcome of [register_token] *)
Definition register_answer (res : (Exn + RegisterResult) * World)
  : (Routes.RouteExn + Routes.Response) * World :=
  match res with
  | (inl (ValueError msg), w1) => (inr (Routes.failure msg, 400), w1)
  | (inl _, w1) => (inr (Routes.failure "Internal server error", 500), w1)
  | (inr result, w1) =>
      (inr (PyDict [("success", PyBool true);
                    ("message",
                     PyStr (if is_new result then "New token registered"
                            else "Token updated"));
                    ("total_tokens", PyInt (token_count result))], 200), w1)
  end.

(** the request names the non-empty string [k] as its token *)
Definition names_token (request : Z + PyVal) (k : string) : Prop :=
  exists d, request = inr (PyDict d)
            /\ Dict.get "token" d = Some (PyStr k) /\ k <> "".

(** the request is a non-empty object whose token is neither missing, nor
    empty, nor a string *)
Definition odd_token (request : Z + PyVal) : Prop :=
  exists d, request = inr (PyDict d)
            /\ truthy (token_of d) = true
            /\ isinstance_str (token_of d) = false.

(** the request body [{"token": v}] *)
Definition request_token (v : PyVal) : Z + PyVal :=
  inr (PyDict [("token", v)]).

(** the result [send_message] builds when the provider returns *)
Definition delivered_to (k : string) : SendResult :=
  mkSendResult true (Some "projects/demo/messages/1") None (Some k) None.

(** a request whose JSON body is the object [d] *)
Definition json_body (d : Dict.t PyVal) : Z + PyVal := inr (PyDict d).

(** requests the routes answer with 500: reading the body raised, or the
    body is a non-empty value that is not an object *)
Definition unreadable (request : Z + PyVal) : Prop :=
  (exists e, request = inl e)
  \/ (exists v, request = inr v /\ truthy v = true
                /\ forall d, v <> PyDict d).

(** * Properties *)

(** ** Dictionaries *)

Ltac case_key a b :=
  destruct (String.eqb_spec a b) as [?Heq | ?Hne];
  [try subst | idtac]; try (exfalso; congruence).

Section DictFacts.
Context {V : Type}.
Implicit Types (d : Dict.t V) (k : string) (v : V).

Lemma mem_str_In k (l : list string) : mem_str k l = true <-> In k l.
Proof.
  induction l as [|a l IH]; simpl.
  - split; [discriminate | tauto].
  - rewrite orb_true_iff, IH, String.eqb_eq. tauto.
Qed.

Lemma mem_str_keys_get k d :
  mem_str k (Dict.keys d) = false <-> Dict.get k d = None.
Proof.
  induction d as [|[a v] d IH]; simpl; [tauto|].
  case_key a k; simpl.
  - split; discriminate.
  - exact IH.
Qed.

Lemma contains_get_some k d v :
  Dict.get k d = Some v -> Dict.contains k d = true.
Proof. unfold Dict.contains. now intros ->. Qed.

Lemma contains_get_none k d :
  Dict.get k d = None -> Dict.contains k d = false.
Proof. unfold Dict.contains. now intros ->. Qed.

Lemma get_In k d v : Dict.get k d = Some v -> In v (Dict.values d).
Proof.
  induction d as [|[a x] d IH]; simpl; [discriminate|].
  case_key a k; intros H.
  - left. congruence.
  - right. auto.
Qed.

(** *** [set] *)

Lemma set_absent k v d :
  Dict.get k d = None -> Dict.set k v d = d ++ [(k, v)].
Proof.
  induction d as [|[a x] d IH]; simpl; [reflexivity|].
  case_key a k; intros H; [discriminate|]. now rewrite IH.
Qed.

Lemma keys_set_present k v v0 d :
  Dict.get k d = Some v0 -> Dict.keys (Dict.set k v d) = Dict.keys d.
Proof.
  induction d as [|[a x] d IH]; simpl; [discriminate|].
  case_key a k; simpl; intros H; [reflexivity|]. f_equal. now apply IH.
Qed.

Lemma get_set_same k v d : Dict.get k (Dict.set k v d) = Some v.
Proof.
  induction d as [|[a x] d IH]; simpl.
  - now rewrite String.eqb_refl.
  - case_key a k; simpl.
    + now rewrite String.eqb_refl.
    + case_key a k. exact IH.
Qed.

Lemma get_set_other k k' v d :
  k' <> k -> Dict.get k' (Dict.set k v d) = Dict.get k' d.
Proof.
  intros Hk. induction d as [|[a x] d IH]; simpl.
  - case_key k k'; reflexivity.
  - case_key a k; simpl.
    + case_key k k'; reflexivity.
    + now rewrite IH.
Qed.

Lemma set_set k v v' d :
  Dict.set k v' (Dict.set k v d) = Dict.set k v' d.
Proof.
  induction d as [|[a x] d IH]; simpl.
  - now rewrite String.eqb_refl.
  - case_key a k; simpl.
    + now rewrite String.eqb_refl.
    + case_key a k. now rewrite IH.
Qed.

Lemma len_set_present k v v0 d :
  Dict.get k d = Some v0 -> Dict.len (Dict.set k v d) = Dict.len d.
Proof.
  intros H. unfold Dict.len. f_equal.
  rewrite <- (length_map fst), <- (length_map fst d).
  f_equal. exact (keys_set_present _ _ _ _ H).
Qed.

(** *** [modify]: the object under a present key is replaced in place *)

Lemma modify_present k f d v :
  Dict.get k d = Some v -> Dict.modify k f d = Some (Dict.set k (f v) d).
Proof.
  induction d as [|[a x] d IH]; simpl; [discriminate|].
  case_key a k; intros H; [now injection H as -> |]. now rewrite (IH H).
Qed.

(** *** [del] *)

Lemma del_present k d v :
  Dict.get k d = Some v ->
  exists d', Dict.del k d = Some d'
             /\ length d = S (length d')
             /\ forall k', k' <> k -> Dict.get k' d' = Dict.get k' d.
Proof.
  induction d as [|[a x] d IH]; simpl; [discriminate|].
  case_key a k; intros H.
  - exists d. repeat split. intros k' Hk. case_key k k'; reflexivity.
  - destruct (IH H) as (d' & -> & Hl & Hg).
    exists ((a, x) :: d'). simpl. repeat split; [congruence|].
    intros k' Hk. case_key a k'; auto.
Qed.

Lemma del_absent k d : Dict.get k d = None -> Dict.del k d = None.
Proof.
  induction d as [|[a x] d IH]; simpl; [reflexivity|].
  case_key a k; intros H; [discriminate|]. now rewrite IH.
Qed.

Lemma del_first k v (pre post : Dict.t V) :
  Dict.get k pre = None ->
  Dict.del k (pre ++ (k, v) :: post) = Some (pre ++ post).
Proof.
  induction pre as [|[a x] pre IH]; simpl.
  - now rewrite String.eqb_refl.
  - case_key a k; intros H; [discriminate|]. now rewrite IH.
Qed.

Lemma get_app_none k (d1 d2 : Dict.t V) :
  Dict.get k (d1 ++ d2) = None <->
  Dict.get k d1 = None /\ Dict.get k d2 = None.
Proof.
  induction d1 as [|[a x] d1 IH]; simpl; [tauto|].
  case_key a k; [|exact IH].
  split; [discriminate | intros [? _]; discriminate].
Qed.

Lemma get_app_right k (d1 d2 : Dict.t V) :
  Dict.get k d1 = None -> Dict.get k (d1 ++ d2) = Dict.get k d2.
Proof.
  induction d1 as [|[a x] d1 IH]; simpl; [reflexivity|].
  case_key a k; intros H; [discriminate | auto].
Qed.

Lemma get_app_left k (d1 d2 : Dict.t V) v :
  Dict.get k d1 = Some v -> Dict.get k (d1 ++ d2) = Some v.
Proof.
  induction d1 as [|[a x] d1 IH]; simpl; [discriminate|].
  case_key a k; auto.
Qed.

Lemma get_same_keys k d d' :
  Dict.keys d' = Dict.keys d -> Dict.get k d = None -> Dict.get k d' = None.
Proof.
  intros Hk Hg. apply mem_str_keys_get. rewrite Hk.
  now apply mem_str_keys_get.
Qed.

(** *** [dict_ok] *)

Lemma dict_ok_cons k v d :
  dict_ok ((k, v) :: d) <-> Dict.get k d = None /\ dict_ok d.
Proof.
  unfold dict_ok. simpl. rewrite andb_true_iff, negb_true_iff.
  now rewrite mem_str_keys_get.
Qed.

Lemma dict_ok_snoc k v d :
  dict_ok d -> Dict.get k d = None -> dict_ok (d ++ [(k, v)]).
Proof.
  induction d as [|[a x] d IH]; intros Hok Hk.
  - reflexivity.
  - simpl in *. apply dict_ok_cons in Hok as [Ha Hok].
    apply dict_ok_cons. revert Hk. case_key a k; intros Hk; [discriminate|].
    split.
    + apply get_app_none. split; [exact Ha|]. simpl. case_key k a; reflexivity.
    + now apply IH.
Qed.

Lemma dict_ok_same_keys d d' :
  Dict.keys d' = Dict.keys d -> dict_ok d -> dict_ok d'.
Proof. unfold dict_ok. now intros ->. Qed.

Lemma get_filter_none k (p : string * V -> bool) d :
  Dict.get k d = None -> Dict.get k (filter p d) = None.
Proof.
  induction d as [|[a x] d IH]; simpl; [reflexivity|].
  case_key a k; intros H; [discriminate|].
  destruct (p (a, x)); simpl; [case_key a k |]; auto.
Qed.

Lemma get_filter k (p : string * V -> bool) d :
  dict_ok d ->
  Dict.get k (filter p d)
  = match Dict.get k d with
    | Some v => if p (k, v) then Some v else None
    | None => None
    end.
Proof.
  induction d as [|[a x] d IH]; intros Hok; [reflexivity|].
  apply dict_ok_cons in Hok as [Ha Hok]. simpl. case_key a k.
  - destruct (p (k, x)); simpl.
    + now rewrite String.eqb_refl.
    + now apply get_filter_none.
  - destruct (p (a, x)); simpl; [case_key a k|]; auto.
Qed.

Lemma dict_ok_filter (p : string * V -> bool) d :
  dict_ok d -> dict_ok (filter p d).
Proof.
  induction d as [|[a x] d IH]; intros Hok; [reflexivity|].
  apply dict_ok_cons in Hok as [Ha Hok]. simpl.
  destruct (p (a, x)); [|auto].
  apply dict_ok_cons. split; [now apply get_filter_none | auto].
Qed.

Lemma dict_ok_del k d d' : Dict.del k d = Some d' -> dict_ok d -> dict_ok d'.
Proof.
  revert d'. induction d as [|[a x] d IH]; simpl; intros d'; [discriminate|].
  case_key a k.
  - intros [= <-] Hok. now apply dict_ok_cons in Hok.
  - destruct (Dict.del k d) as [d0|] eqn:Hd; simpl; [|discriminate].
    intros [= <-] Hok. apply dict_ok_cons in Hok as [Ha Hok].
    apply dict_ok_cons. split; [|now apply (IH d0)].
    destruct (Dict.get k d) as [v|] eqn:Hg.
    + destruct (del_present _ _ _ Hg) as (d1 & Hd1 & _ & Hget).
      rewrite Hd in Hd1. injection Hd1 as <-. rewrite Hget; auto.
    + now rewrite (del_absent _ _ Hg) in Hd.
Qed.

Lemma get_del_same k d d' :
  dict_ok d -> Dict.del k d = Some d' -> Dict.get k d' = None.
Proof.
  revert d'. induction d as [|[a x] d IH]; simpl; intros d' Hok;
    [discriminate|].
  apply dict_ok_cons in Hok as [Ha Hok]. case_key a k.
  - now intros [= <-].
  - destruct (Dict.del k d) as [d0|] eqn:Hd; simpl; [|discriminate].
    intros [= <-]. simpl. case_key a k. now apply IH.
Qed.
End DictFacts.

Lemma dict_ok_app_mid {V : Type} (k : string) (v : V) (pre d : Dict.t V) :
  dict_ok (pre ++ (k, v) :: d) ->
  Dict.get k pre = None /\ dict_ok (pre ++ d).
Proof.
  induction pre as [|[a x] pre IH]; simpl; intros Hok.
  - apply dict_ok_cons in Hok as [_ Hok]. now split.
  - apply dict_ok_cons in Hok as [Ha Hok].
    destruct (IH Hok) as [Hk Hok']. apply get_app_none in Ha as [Ha1 Ha2].
    simpl in Ha2. split.
    + case_key a k; [|exact Hk]. now rewrite String.eqb_refl in Ha2.
    + apply dict_ok_cons. split; [|exact Hok'].
      apply get_app_none. split; [exact Ha1|].
      destruct (k =? a)%string; [discriminate | exact Ha2].
Qed.

Lemma with_tokens_same (w : World) : with_tokens w (tokens w) = w.
Proof. now destruct w. Qed.

Lemma length_filter_le {A : Type} (p : A -> bool) (l : list A) :
  (length (filter p l) <= length l)%nat.
Proof.
  induction l as [|a l IH]; simpl; [lia|]. destruct (p a); simpl; lia.
Qed.

Lemma filter_all_false {A : Type} (p : A -> bool) (l : list A) :
  (forall a, In a l -> p a = false) -> filter p l = [].
Proof.
  induction l as [|a l IH]; simpl; intros H; [reflexivity|].
  rewrite (H a (or_introl eq_refl)). apply IH. intros; apply H; now right.
Qed.

Lemma filter_all_true {A : Type} (p : A -> bool) (l : list A) :
  (forall a, In a l -> p a = true) -> filter p l = l.
Proof.
  induction l as [|a l IH]; simpl; intros H; [reflexivity|].
  rewrite (H a (or_introl eq_refl)). f_equal. apply IH. intros; apply H; now right.
Qed.

Lemma filter_some_false {A : Type} (p : A -> bool) (l : list A) (a : A) :
  In a l -> p a = false -> (length (filter p l) < length l)%nat.
Proof.
  induction l as [|b l IH]; simpl; [tauto|].
  intros [-> | Hin] Ha.
  - rewrite Ha. pose proof (length_filter_le p l). lia.
  - specialize (IH Hin Ha). destruct (p b); simpl; lia.
Qed.

(** ** The registry operations as state transformers *)

Section ServerFacts.
Variable now : nat -> string.
Variable fcm : list Message -> Message -> FcmReply.

(** the loop of [_cleanup_inactive_tokens] never meets a missing key and
    leaves exactly the active entries, in their order *)
Lemma cleanup_loop (d pre : Dict.t FCMToken) (w : World) :
  tokens w = pre ++ d -> dict_ok (pre ++ d) ->
  for_each (map fst (filter entry_inactive d)) delitem w
  = (inr tt, with_tokens w (pre ++ filter entry_active d)).
Proof.
  revert pre w. induction d as [|[k o] d IH]; intros pre w Hw Hok; simpl.
  - unfold ret. rewrite <- Hw. now rewrite with_tokens_same.
  - unfold entry_inactive at 1, entry_active at 1. simpl.
    destruct (is_active o) eqn:Ho; simpl.
    + rewrite (IH (pre ++ [(k, o)]) w).
      * now rewrite <- app_assoc.
      * now rewrite <- app_assoc.
      * now rewrite <- app_assoc.
    + destruct (dict_ok_app_mid _ _ _ _ Hok) as [Hk Hok'].
      unfold bind, delitem at 1. rewrite Hw, (del_first _ _ _ _ Hk).
      rewrite (IH pre (with_tokens w (pre ++ d)) eq_refl Hok').
      reflexivity.
Qed.

Lemma cleanup_run (w : World) :
  dict_ok (tokens w) ->
  _cleanup_inactive_tokens w
  = (inr tt, with_tokens w (filter entry_active (tokens w))).
Proof.
  intros Hok. unfold _cleanup_inactive_tokens, bind, get_tokens.
  exact (cleanup_loop (tokens w) [] w eq_refl Hok).
Qed.

Lemma register_str_present (k : string) (o : FCMToken) (w : World) :
  Dict.get k (tokens w) = Some o ->
  register_str now k w
  = (inr (mkRegisterResult false (Dict.len (tokens w))),
     with_tokens (tick w)
       (Dict.set k (refreshed o (now (clock w))) (tokens w))).
Proof.
  intros Hg. unfold register_str, bind, datetime_now, get_tokens. simpl.
  rewrite (contains_get_some _ _ _ Hg). unfold setattr at 1. simpl.
  rewrite (modify_present _ _ _ _ Hg). unfold setattr. simpl.
  rewrite (modify_present _ _ _ _ (get_set_same _ _ _)).
  unfold ret. simpl. rewrite set_set.
  rewrite (len_set_present _ _ _ _ Hg). reflexivity.
Qed.

Lemma register_str_room (k : string) (w : World) :
  Dict.get k (tokens w) = None ->
  Dict.len (tokens w) < max_tokens w ->
  register_str now k w
  = (inr (mkRegisterResult true (Dict.len (tokens w) + 1)),
     with_tokens (tick w)
       (tokens w ++ [(k, new_FCMToken k (now (clock w)) (now (clock w)))])).
Proof.
  intros Hg Hlt. unfold register_str, bind, datetime_now, get_tokens. simpl.
  rewrite (contains_get_none _ _ Hg). unfold get_max_tokens. simpl.
  destruct (Z.leb_spec (max_tokens w) (Dict.len (tokens w))); [lia|].
  unfold ret, setitem. simpl. rewrite (set_absent _ _ _ Hg).
  unfold Dict.len. rewrite length_app, Nat2Z.inj_add. reflexivity.
Qed.

Lemma register_str_full (k : string) (w : World) :
  dict_ok (tokens w) ->
  Dict.get k (tokens w) = None ->
  max_tokens w <= Dict.len (tokens w) ->
  register_str now k w
  = (inr (mkRegisterResult true
            (Dict.len (filter entry_active (tokens w)) + 1)),
     with_tokens (tick w)
       (filter entry_active (tokens w)
        ++ [(k, new_FCMToken k (now (clock w)) (now (clock w)))])).
Proof.
  intros Hok Hg Hle.
  unfold register_str, bind, datetime_now, get_tokens. simpl.
  rewrite (contains_get_none _ _ Hg). unfold get_max_tokens. simpl.
  destruct (Z.leb_spec (max_tokens w) (Dict.len (tokens w))); [|lia].
  change (mkWorld (tokens w) (max_tokens w) (S (clock w)) (outbox w))
    with (tick w).
  rewrite (cleanup_run (tick w) Hok).
  unfold ret, setitem. simpl.
  rewrite (set_absent _ _ _ (get_filter_none _ _ _ Hg)).
  unfold Dict.len. rewrite length_app, Nat2Z.inj_add. reflexivity.
Qed.

Lemma register_token_invalid (tok : PyVal) (w : World) :
  invalid_token tok ->
  register_token now tok w = (inl (ValueError "Invalid token provided"), w).
Proof.
  intros [-> | H]; [reflexivity|].
  destruct tok; try discriminate; unfold register_token; simpl;
    now rewrite ?orb_true_r.
Qed.

Lemma register_token_str (k : string) (w : World) :
  k <> "" -> register_token now (PyStr k) w = register_str now k w.
Proof.
  intros Hk. unfold register_token. simpl.
  destruct (String.eqb_spec k ""); [contradiction | reflexivity].
Qed.

Lemma valid_or_invalid (tok : PyVal) :
  invalid_token tok \/ exists k, tok = PyStr k /\ k <> "".
Proof.
  destruct tok; try (left; right; reflexivity).
  destruct (String.eqb_spec s ""); [left; left; congruence|].
  right. now exists s.
Qed.

(** registration of the string [k], whatever the state of the registry *)
Lemma register_str_cases (k : string) (w : World) :
  dict_ok (tokens w) ->
  exists r d, register_str now k w = (inr r, with_tokens (tick w) d)
    /\ dict_ok d
    /\ exists o, Dict.get k d = Some o /\ is_active o = true.
Proof.
  intros Hok. destruct (Dict.get k (tokens w)) as [o|] eqn:Hg.
  - rewrite (register_str_present _ _ _ Hg). do 2 eexists.
    split; [reflexivity|]. split.
    + exact (dict_ok_same_keys _ _ (keys_set_present _ _ _ _ Hg) Hok).
    + rewrite get_set_same. now eexists.
  - destruct (Z.leb_spec (max_tokens w) (Dict.len (tokens w))) as [Hle|Hlt].
    + rewrite (register_str_full _ _ Hok Hg Hle). do 2 eexists.
      split; [reflexivity|]. split.
      * apply dict_ok_snoc;
          [now apply dict_ok_filter | now apply get_filter_none].
      * rewrite get_app_right by now apply get_filter_none.
        simpl. rewrite String.eqb_refl. now eexists.
    + rewrite (register_str_room _ _ Hg Hlt). do 2 eexists.
      split; [reflexivity|]. split.
      * now apply dict_ok_snoc.
      * rewrite (get_app_right _ _ _ Hg).
        simpl. rewrite String.eqb_refl. now eexists.
Qed.

(** *** update_token_stats *)

Lemma update_one_present (r : SendResult) (k : string) (o : FCMToken)
      (w : World) :
  res_token r = Some k -> Dict.get k (tokens w) = Some o ->
  update_one now r w
  = (inr tt,
     with_tokens (if res_success r then tick w else w)
       (Dict.set k (recorded r o (now (clock w))) (tokens w))).
Proof.
  intros Hr Hg. unfold update_one, bind, get_tokens. rewrite Hr.
  rewrite (contains_get_some _ _ _ Hg). unfold recorded.
  fold (deactivating r).
  destruct (res_success r).
  - unfold setattr at 1. rewrite (modify_present _ _ _ _ Hg).
    unfold datetime_now, setattr. simpl.
    rewrite (modify_present _ _ _ _ (get_set_same _ _ _)), set_set.
    reflexivity.
  - unfold setattr at 1. rewrite (modify_present _ _ _ _ Hg).
    destruct (deactivating r).
    + unfold setattr. simpl.
      rewrite (modify_present _ _ _ _ (get_set_same _ _ _)), set_set.
      reflexivity.
    + reflexivity.
Qed.

Lemma update_one_absent (r : SendResult) (w : World) :
  (forall k, res_token r = Some k -> Dict.get k (tokens w) = None) ->
  update_one now r w = (inr tt, w).
Proof.
  intros H. unfold update_one, bind, get_tokens.
  destruct (res_token r) as [k|]; [|reflexivity].
  now rewrite (contains_get_none _ _ (H k eq_refl)).
Qed.

(** one outcome never raises, keeps the keys and their order, and keeps
    every inactive record inactive *)
Lemma update_one_frame (r : SendResult) (w : World) :
  exists w', update_one now r w = (inr tt, w')
    /\ Dict.keys (tokens w') = Dict.keys (tokens w)
    /\ max_tokens w' = max_tokens w /\ outbox w' = outbox w
    /\ forall k o, Dict.get k (tokens w) = Some o ->
         exists o', Dict.get k (tokens w') = Some o'
                    /\ (is_active o = false -> is_active o' = false).
Proof.
  destruct (res_token r) as [k|] eqn:Hr.
  - destruct (Dict.get k (tokens w)) as [o|] eqn:Hg.
    + rewrite (update_one_present _ _ _ _ Hr Hg). eexists.
      split; [reflexivity|]. simpl.
      split; [exact (keys_set_present _ _ _ _ Hg)|].
      split; [now destruct (res_success r)|].
      split; [now destruct (res_success r)|].
      intros k' o' Hg'. case_key k' k.
      * rewrite get_set_same. eexists. split; [reflexivity|].
        assert (o' = o) as -> by congruence.
        unfold recorded.
        destruct (res_success r), (deactivating r); simpl; auto.
      * rewrite (get_set_other _ _ _ _ Hne). eauto.
    + rewrite update_one_absent.
      * exists w. repeat split; eauto.
      * intros k' Hk'. congruence.
  - rewrite update_one_absent.
    + exists w. repeat split; eauto.
    + intros k' Hk'. congruence.
Qed.

Lemma for_each_app {A : Type} (l1 l2 : list A) (body : A -> M unit)
      (w : World) :
  (forall a w0, fst (body a w0) = inr tt) ->
  for_each (l1 ++ l2) body w = for_each l2 body (snd (for_each l1 body w)).
Proof.
  intros Hb. revert w. induction l1 as [|a l1 IH]; intros w; simpl.
  - reflexivity.
  - unfold bind. specialize (Hb a w).
    destruct (body a w) as [[e|[]] w1]; simpl in *; [discriminate|].
    apply IH.
Qed.

Lemma update_one_ok (r : SendResult) (w : World) :
  fst (update_one now r w) = inr tt.
Proof. destruct (update_one_frame r w) as (w' & -> & _). reflexivity. Qed.

Lemma update_token_stats_frame (rs : list SendResult) (w : World) :
  exists w', update_token_stats now rs w = (inr tt, w')
    /\ Dict.keys (tokens w') = Dict.keys (tokens w)
    /\ max_tokens w' = max_tokens w /\ outbox w' = outbox w
    /\ forall k o, Dict.get k (tokens w) = Some o ->
         exists o', Dict.get k (tokens w') = Some o'
                    /\ (is_active o = false -> is_active o' = false).
Proof.
  unfold update_token_stats. revert w.
  induction rs as [|r rs IH]; intros w; simpl.
  - exists w. repeat split; eauto.
  - unfold bind.
    destruct (update_one_frame r w) as (w1 & -> & Hk1 & Hm1 & Hb1 & Hg1).
    destruct (IH w1) as (w2 & -> & Hk2 & Hm2 & Hb2 & Hg2).
    exists w2. split; [reflexivity|].
    repeat split; try congruence.
    intros k o Hg. destruct (Hg1 k o Hg) as (o1 & Hg1' & Ha1).
    destruct (Hg2 k o1 Hg1') as (o2 & Hg2' & Ha2). eauto.
Qed.

(** *** remove_token *)

Lemma remove_token_present (k : string) (o : FCMToken) (w : World) :
  Dict.get k (tokens w) = Some o ->
  exists d, Dict.del k (tokens w) = Some d
    /\ remove_token k w = (inr true, with_tokens w d).
Proof.
  intros Hg. destruct (del_present _ _ _ Hg) as (d & Hd & _).
  exists d. split; [exact Hd|].
  unfold remove_token, bind, get_tokens, delitem.
  now rewrite (contains_get_some _ _ _ Hg), Hd.
Qed.

Lemma remove_token_absent (k : string) (w : World) :
  Dict.get k (tokens w) = None -> remove_token k w = (inr false, w).
Proof.
  intros Hg. unfold remove_token, bind, get_tokens.
  now rewrite (contains_get_none _ _ Hg).
Qed.

(** *** The send path: the registry is only read *)

Lemma send_message_frame (tok : string) (title body : PyVal)
      (data : option (Dict.t string)) (w : World) :
  exists r m,
    send_message now fcm tok title body data w
    = (inr r, mkWorld (tokens w) (max_tokens w) (S (clock w))
                      (outbox w ++ [m])).
Proof.
  unfold send_message, bind, datetime_now, messaging_send. simpl.
  match goal with |- context [fcm ?h ?m] => destruct (fcm h m) end;
    do 2 eexists; reflexivity.
Qed.

Lemma collect_frame (l : list string) (title body : PyVal)
      (acc : list SendResult) (w : World) :
  exists rs w',
    collect l (fun tok => send_message now fcm tok title body None) acc w
    = (inr rs, w')
    /\ tokens w' = tokens w /\ max_tokens w' = max_tokens w
    /\ length (outbox w') = (length (outbox w) + length l)%nat.
Proof.
  revert acc w. induction l as [|tok l IH]; intros acc w; simpl.
  - exists acc, w. repeat split. lia.
  - unfold bind.
    destruct (send_message_frame tok title body None w) as (r & m & ->).
    destruct (IH (acc ++ [r])
                (mkWorld (tokens w) (max_tokens w) (S (clock w))
                         (outbox w ++ [m])))
      as (rs & w' & -> & Ht & Hm & Ho).
    exists rs, w'. simpl in *. repeat split; auto.
    rewrite Ho, length_app. simpl. lia.
Qed.

Lemma get_active_tokens_run (w : World) :
  get_active_tokens w
  = (inr (map token (filter is_active (Dict.values (tokens w)))), w).
Proof. reflexivity. Qed.

Lemma broadcast_frame (title body : PyVal) (w : World) :
  exists resp w', broadcast now fcm title body w = (inr resp, w')
    /\ tokens w' = tokens w /\ max_tokens w' = max_tokens w.
Proof.
  unfold broadcast, bind. rewrite get_active_tokens_run.
  destruct (map token (filter is_active (Dict.values (tokens w))))
    as [|tok l] eqn:Hl.
  - do 2 eexists. split; [reflexivity|]. now split.
  - destruct (collect_frame (tok :: l) title body [] w)
      as (rs & w' & -> & Ht & Hm & _).
    do 2 eexists. split; [reflexivity|]. now split.
Qed.

Lemma send_push_frame (request : Exn + PyVal) (w : World) :
  exists resp w', send_push now fcm request w = (inr resp, w')
    /\ tokens w' = tokens w /\ max_tokens w' = max_tokens w.
Proof.
  unfold send_push, try_except, bind.
  destruct request as [e|data]; simpl.
  - do 2 eexists. split; [reflexivity|]. now split.
  - destruct (truthy data) eqn:Ht; simpl.
    + destruct data; simpl;
        try (do 2 eexists; split; [reflexivity|]; now split).
      destruct (broadcast_frame
                  match Dict.get "title" d with
                  | Some v => v
                  | None => PyStr "Python Server Notification"
                  end
                  match Dict.get "body" d with
                  | Some v => v
                  | None =>
                      PyStr "This is a test message from Python FCM server."
                  end w) as (resp & w' & -> & H1 & H2).
      do 2 eexists. split; [reflexivity|]. now split.
    + do 2 eexists. split; [reflexivity|]. now split.
Qed.

(** *** Invariants of the runs *)

Lemma exec_max_tokens (w : World) (o : Op) :
  dict_ok (tokens w) -> max_tokens (exec now fcm w o) = max_tokens w.
Proof.
  intros Hok. destruct o as [tok|tok|rs| | |request]; simpl.
  - destruct (valid_or_invalid tok) as [Hi | (k & -> & Hk)].
    + now rewrite (register_token_invalid _ _ Hi).
    + rewrite (register_token_str _ _ Hk).
      destruct (register_str_cases k w Hok) as (r & d & -> & _).
      reflexivity.
  - destruct (Dict.get tok (tokens w)) as [o|] eqn:Hg.
    + destruct (remove_token_present _ _ _ Hg) as (d & _ & ->).
      reflexivity.
    + now rewrite (remove_token_absent _ _ Hg).
  - destruct (update_token_stats_frame rs w) as (w' & -> & _ & Hm & _).
    exact Hm.
  - reflexivity.
  - reflexivity.
  - destruct (send_push_frame request w) as (resp & w' & -> & _ & Hm).
    exact Hm.
Qed.

Lemma exec_dict_ok (w : World) (o : Op) :
  dict_ok (tokens w) -> dict_ok (tokens (exec now fcm w o)).
Proof.
  intros Hok. destruct o as [tok|tok|rs| | |request]; simpl.
  - destruct (valid_or_invalid tok) as [Hi | (k & -> & Hk)].
    + now rewrite (register_token_invalid _ _ Hi).
    + rewrite (register_token_str _ _ Hk).
      destruct (register_str_cases k w Hok) as (r & d & -> & Hd & _).
      exact Hd.
  - destruct (Dict.get tok (tokens w)) as [o|] eqn:Hg.
    + destruct (remove_token_present _ _ _ Hg) as (d & Hd & ->).
      exact (dict_ok_del _ _ _ Hd Hok).
    + now rewrite (remove_token_absent _ _ Hg).
  - destruct (update_token_stats_frame rs w) as (w' & -> & Hk & _).
    exact (dict_ok_same_keys _ _ Hk Hok).
  - exact Hok.
  - exact Hok.
  - destruct (send_push_frame request w) as (resp & w' & -> & Ht & _).
    simpl. now rewrite Ht.
Qed.

Lemma run_invariants (ops : list Op) (w : World) :
  dict_ok (tokens w) ->
  dict_ok (tokens (run now fcm ops w))
  /\ max_tokens (run now fcm ops w) = max_tokens w.
Proof.
  revert w. induction ops as [|o ops IH]; intros w Hok; simpl.
  - now split.
  - destruct (IH (exec now fcm w o) (exec_dict_ok w o Hok)) as [H1 H2].
    split; [exact H1|]. now rewrite H2, exec_max_tokens.
Qed.

(** every state of the server has pairwise distinct keys and the
    configured maximum *)
Lemma reachable_dict_ok (maxtok : Z) (w : World) :
  reachable now fcm maxtok w ->
  dict_ok (tokens w) /\ max_tokens w = maxtok.
Proof.
  intros [ops ->].
  exact (run_invariants ops (init_world maxtok) eq_refl).
Qed.

Lemma reachable_exec (maxtok : Z) (w : World) (o : Op) :
  reachable now fcm maxtok w -> reachable now fcm maxtok (exec now fcm w o).
Proof.
  intros [ops ->]. exists (ops ++ [o]).
  unfold run. now rewrite fold_left_app.
Qed.

(** ** The claims about [register_token] *)

(** C1 (amended).  In every reachable state, a [register_token] call that
    inserts a new identifier into a registry whose size has reached the
    configured maximum first evicts all inactive records and then appends
    the new one.  If the size was within the bound before the call, it is
    within the bound after it, except in one case: the size equals the
    maximum, every stored record is active and the identifier is new; then
    nothing is evicted and the size becomes the maximum plus one. *)
Theorem register_token_size_bound (maxtok : Z) (w : World) (tok : PyVal) :
  reachable now fcm maxtok w ->
  (forall k, tok = PyStr k -> k <> "" ->
     Dict.get k (tokens w) = None -> maxtok <= Dict.len (tokens w) ->
     tokens (snd (register_token now tok w))
     = filter entry_active (tokens w)
       ++ [(k, new_FCMToken k (now (clock w)) (now (clock w)))])
  /\ (Dict.len (tokens w) <= maxtok ->
      Dict.len (tokens (snd (register_token now tok w))) <= maxtok
      \/ (Dict.len (tokens w) = maxtok
          /\ (forall o, In o (Dict.values (tokens w)) -> is_active o = true)
          /\ (exists k, tok = PyStr k /\ k <> ""
                        /\ Dict.get k (tokens w) = None)
          /\ Dict.len (tokens (snd (register_token now tok w)))
             = maxtok + 1)).
Proof.
  intros Hr. destruct (reachable_dict_ok _ _ Hr) as [Hok Hmax].
  split.
  - intros k -> Hk Hg Hle. rewrite (register_token_str _ _ Hk).
    rewrite register_str_full by (auto; lia). reflexivity.
  - intros Hle. destruct (valid_or_invalid tok) as [Hi | (k & -> & Hk)].
    { left. now rewrite (register_token_invalid _ _ Hi). }
    rewrite (register_token_str _ _ Hk).
    destruct (Dict.get k (tokens w)) as [o|] eqn:Hg.
    { left. rewrite (register_str_present _ _ _ Hg). simpl.
      now rewrite (len_set_present _ _ _ _ Hg). }
    destruct (Z.ltb_spec (Dict.len (tokens w)) maxtok) as [Hlt|Hge].
    { left. rewrite register_str_room by (auto; lia). simpl.
      unfold Dict.len in *. rewrite length_app. simpl. lia. }
    rewrite register_str_full by (auto; lia). simpl.
    unfold Dict.len in *. rewrite length_app. simpl.
    destruct (forallb entry_active (tokens w)) eqn:Hall.
    + right. rewrite forallb_forall in Hall.
      rewrite (filter_all_true _ _ Hall).
      split; [lia|]. split.
      * intros o Ho. apply in_map_iff in Ho as ([k' o'] & <- & Hin).
        exact (Hall _ Hin).
      * split; [now exists k | lia].
    + left.
      assert (exists kv, In kv (tokens w) /\ entry_active kv = false)
        as (kv & Hin & Hkv).
      { clear -Hall. induction (tokens w) as [|a l IH]; [discriminate|].
        simpl in Hall. destruct (entry_active a) eqn:Ha.
        - destruct (IH Hall) as (kv & ? & ?). exists kv. split; simpl; auto.
        - exists a. split; simpl; auto. }
      pose proof (filter_some_false _ _ _ Hin Hkv). lia.
Qed.

(** C3.  When the registry holds exactly the configured maximum of
    records, all of them inactive, registering an identifier that is not
    present evicts every record and leaves exactly one: the new identifier,
    active, both counters zero, both time stamps the time of the call. *)
Theorem register_token_evicts_all (k : string) (w : World) :
  k <> "" -> dict_ok (tokens w) ->
  Dict.len (tokens w) = max_tokens w ->
  (forall o, In o (Dict.values (tokens w)) -> is_active o = false) ->
  Dict.get k (tokens w) = None ->
  register_token now (PyStr k) w
  = (inr (mkRegisterResult true 1),
     mkWorld [(k, mkFCMToken k (now (clock w)) (now (clock w)) 0 0 true)]
             (max_tokens w) (S (clock w)) (outbox w)).
Proof.
  intros Hk Hok Hlen Hall Hg. rewrite (register_token_str _ _ Hk).
  rewrite register_str_full by (auto; lia).
  rewrite filter_all_false; [reflexivity|].
  intros [k' o] Hin. unfold entry_active. simpl.
  apply Hall. apply in_map_iff. now exists (k', o).
Qed.

(** C5.  Registering a non-empty identifier twice in succession: the first
    call reports [is_new = True] (exactly when the identifier was not yet
    registered, which is the case the claim is about), the second reports
    [is_new = False] with the same [token_count]; the second call inserts
    nothing, it only sets [last_active] to the time of the call and
    [is_active] to [True] on the record of that identifier. *)
Theorem register_token_twice (k : string) (w : World) :
  k <> "" -> dict_ok (tokens w) ->
  exists b c o w1 w2,
    register_token now (PyStr k) w = (inr (mkRegisterResult b c), w1)
    /\ (b = true <-> Dict.get k (tokens w) = None)
    /\ register_token now (PyStr k) w1
       = (inr (mkRegisterResult false c), w2)
    /\ c = Dict.len (tokens w1)
    /\ Dict.len (tokens w2) = Dict.len (tokens w1)
    /\ Dict.keys (tokens w2) = Dict.keys (tokens w1)
    /\ Dict.get k (tokens w1) = Some o
    /\ Dict.get k (tokens w2)
       = Some (mkFCMToken (token o) (registered_at o) (now (clock w1))
                          (successful_sends o) (failed_sends o) true)
    /\ forall k', k' <> k ->
         Dict.get k' (tokens w2) = Dict.get k' (tokens w1).
Proof.
  intros Hk Hok. rewrite (register_token_str _ _ Hk).
  assert (exists b d o,
            register_str now k w
            = (inr (mkRegisterResult b (Dict.len d)), with_tokens (tick w) d)
            /\ (b = true <-> Dict.get k (tokens w) = None)
            /\ Dict.get k d = Some o)
    as (b & d & o & -> & Hb & Ho).
  { destruct (Dict.get k (tokens w)) as [o0|] eqn:Hg.
    - exists false. do 2 eexists.
      rewrite (register_str_present _ _ _ Hg).
      rewrite <- (len_set_present k (refreshed o0 (now (clock w))) _ _ Hg).
      split; [reflexivity|].
      split; [split; discriminate | apply get_set_same].
    - set (o := new_FCMToken k (now (clock w)) (now (clock w))).
      assert (forall d0, Dict.get k d0 = None ->
                         Dict.get k (d0 ++ [(k, o)]) = Some o) as Hlast.
      { intros d0 H0. rewrite (get_app_right _ _ _ H0). simpl.
        now rewrite String.eqb_refl. }
      exists true.
      destruct (Z.leb_spec (max_tokens w) (Dict.len (tokens w))) as [H|H].
      + exists (filter entry_active (tokens w) ++ [(k, o)]), o.
        rewrite (register_str_full _ _ Hok Hg H). unfold Dict.len.
        rewrite length_app, Nat2Z.inj_add.
        split; [reflexivity|]. split; [tauto|].
        apply Hlast. now apply get_filter_none.
      + exists (tokens w ++ [(k, o)]), o.
        rewrite (register_str_room _ _ Hg H). unfold Dict.len.
        rewrite length_app, Nat2Z.inj_add.
        split; [reflexivity|]. split; [tauto|]. now apply Hlast. }
  do 5 eexists. split; [reflexivity|]. split; [exact Hb|].
  rewrite (register_token_str _ _ Hk).
  rewrite (register_str_present k o) by exact Ho.
  split; [reflexivity|]. simpl.
  split; [reflexivity|].
  split; [exact (len_set_present _ _ _ _ Ho)|].
  split; [exact (keys_set_present _ _ _ _ Ho)|].
  split; [exact Ho|].
  split; [now rewrite get_set_same|].
  intros k' Hk'. now apply get_set_other.
Qed.

(** C8.  [register_token] raises exactly when the identifier is the empty
    string or not a string; the exception is [ValueError] and the state is
    then unchanged. *)
Theorem register_token_invalid_input (tok : PyVal) (w : World) :
  dict_ok (tokens w) ->
  ((exists e, fst (register_token now tok w) = inl e)
   <-> (tok = PyStr "" \/ isinstance_str tok = false))
  /\ ((tok = PyStr "" \/ isinstance_str tok = false) ->
      register_token now tok w
      = (inl (ValueError "Invalid token provided"), w)).
Proof.
  intros Hok. split; [|apply register_token_invalid].
  split.
  - intros [e He].
    destruct (valid_or_invalid tok) as [Hi | (k & -> & Hk)]; [exact Hi|].
    rewrite (register_token_str _ _ Hk) in He.
    destruct (register_str_cases k w Hok) as (r & d & Hr & _).
    rewrite Hr in He. discriminate.
  - intros Hi. rewrite (register_token_invalid _ _ Hi). now eexists.
Qed.

(** C10.  In a registry at or above the configured maximum, registering an
    identifier that is present evicts nothing: the keys and their order are
    unchanged, every other record is unchanged, and the record of the
    identifier keeps [token], [registered_at], [successful_sends] and
    [failed_sends], with [last_active] the time of the call and
    [is_active] true. *)
Theorem register_token_present_no_eviction
        (k : string) (o : FCMToken) (w : World) :
  k <> "" -> Dict.get k (tokens w) = Some o ->
  max_tokens w <= Dict.len (tokens w) ->
  exists w',
    register_token now (PyStr k) w
    = (inr (mkRegisterResult false (Dict.len (tokens w))), w')
    /\ Dict.keys (tokens w') = Dict.keys (tokens w)
    /\ (forall k', k' <> k ->
          Dict.get k' (tokens w') = Dict.get k' (tokens w))
    /\ Dict.get k (tokens w')
       = Some (mkFCMToken (token o) (registered_at o) (now (clock w))
                          (successful_sends o) (failed_sends o) true)
    /\ max_tokens w' = max_tokens w /\ outbox w' = outbox w.
Proof.
  intros Hk Hg _. rewrite (register_token_str _ _ Hk).
  rewrite (register_str_present _ _ _ Hg). eexists.
  split; [reflexivity|]. simpl.
  split; [exact (keys_set_present _ _ _ _ Hg)|].
  split; [intros k' Hk'; now apply get_set_other|].
  split; [now rewrite get_set_same|]. now split.
Qed.

(** ** The claims about [update_token_stats] *)

Lemma deactivating_iff (r : SendResult) :
  deactivating r = true
  <-> (res_error_code r = Some "UNREGISTERED"
       \/ res_error_code r = Some "INVALID_ARGUMENT").
Proof.
  unfold deactivating. destruct (res_error_code r) as [c|]; cbn [mem_str].
  - rewrite !orb_true_iff, !String.eqb_eq. split.
    + intros [<- | [<- | H]]; [now left | now right | discriminate].
    + intros [[= <-] | [= <-]]; tauto.
  - split; [intros H; vm_compute in H; discriminate
           | intros [H|H]; discriminate].
Qed.

Lemma update_token_stats_single (r : SendResult) (w : World) :
  update_token_stats now [r] w = update_one now r w.
Proof.
  unfold update_token_stats. simpl. unfold bind.
  destruct (update_one_frame r w) as (w' & -> & _). reflexivity.
Qed.

(** C6.  [update_token_stats] never raises and handles the outcomes one
    after the other.  An outcome whose identifier is not registered leaves
    the state as it is.  For a registered identifier, keys and all other
    records are untouched; a success adds one to [successful_sends] and
    sets [last_active] to the time read; a failure adds one to
    [failed_sends], and sets [is_active] to false when the error code is
    UNREGISTERED or INVALID_ARGUMENT and leaves it alone otherwise. *)
Theorem update_token_stats_outcomes :
  (forall rs w, fst (update_token_stats now rs w) = inr tt)
  /\ (forall rs1 rs2 w,
        update_token_stats now (rs1 ++ rs2) w
        = update_token_stats now rs2 (snd (update_token_stats now rs1 w)))
  /\ forall r w,
       ((forall k, res_token r = Some k -> Dict.get k (tokens w) = None) ->
        snd (update_token_stats now [r] w) = w)
       /\ forall k o,
            res_token r = Some k -> Dict.get k (tokens w) = Some o ->
            exists o',
              Dict.get k (tokens (snd (update_token_stats now [r] w)))
              = Some o'
              /\ Dict.keys (tokens (snd (update_token_stats now [r] w)))
                 = Dict.keys (tokens w)
              /\ (forall k', k' <> k ->
                    Dict.get k'
                      (tokens (snd (update_token_stats now [r] w)))
                    = Dict.get k' (tokens w))
              /\ (res_success r = true ->
                  o' = mkFCMToken (token o) (registered_at o)
                         (now (clock w)) (successful_sends o + 1)
                         (failed_sends o) (is_active o))
              /\ (res_success r = false ->
                  token o' = token o
                  /\ registered_at o' = registered_at o
                  /\ last_active o' = last_active o
                  /\ successful_sends o' = successful_sends o
                  /\ failed_sends o' = failed_sends o + 1
                  /\ (res_error_code r = Some "UNREGISTERED"
                      \/ res_error_code r = Some "INVALID_ARGUMENT" ->
                      is_active o' = false)
                  /\ (res_error_code r <> Some "UNREGISTERED" ->
                      res_error_code r <> Some "INVALID_ARGUMENT" ->
                      is_active o' = is_active o)).
Proof.
  split; [|split].
  - intros rs w.
    destruct (update_token_stats_frame rs w) as (w' & -> & _). reflexivity.
  - intros rs1 rs2 w. apply for_each_app. intros; apply update_one_ok.
  - intros r w. split.
    + intros H. rewrite update_token_stats_single.
      now rewrite (update_one_absent _ _ H).
    + intros k o Hr Hg. rewrite update_token_stats_single.
      rewrite (update_one_present _ _ _ _ Hr Hg). simpl.
      eexists. split; [apply get_set_same|].
      split; [exact (keys_set_present _ _ _ _ Hg)|].
      split; [intros k' Hk'; now apply get_set_other|].
      unfold recorded. split; intros Hs; rewrite Hs; [reflexivity|].
      simpl. repeat split.
      * intros Hc. apply deactivating_iff in Hc. now rewrite Hc.
      * intros H1 H2. destruct (deactivating r) eqn:Hd; [|reflexivity].
        apply deactivating_iff in Hd. tauto.
Qed.

(** *** Operations that do not register the identifier [k] *)

Lemma exec_keeps_record (k : string) (w : World) (o : Op) :
  keeps_record k o -> inactive_in k w -> inactive_in k (exec now fcm w o).
Proof.
  intros Hop (r & Hg & Hr).
  destruct o as [tok|tok|rs| | |request]; simpl in *.
  - contradiction.
  - destruct (Dict.get tok (tokens w)) as [o|] eqn:Ht.
    + destruct (del_present _ _ _ Ht) as (d & Hd & _ & Hget).
      destruct (remove_token_present _ _ _ Ht) as (d' & Hd' & ->).
      assert (d' = d) as -> by congruence. simpl.
      exists r. rewrite Hget by congruence. now split.
    + rewrite (remove_token_absent _ _ Ht). now exists r.
  - destruct (update_token_stats_frame rs w) as (w' & -> & _ & _ & _ & H).
    destruct (H k r Hg) as (o' & Hg' & Ha). exists o'. auto.
  - now exists r.
  - now exists r.
  - destruct (send_push_frame request w) as (resp & w' & -> & Ht & _).
    exists r. simpl. rewrite Ht. now split.
Qed.

Lemma exec_not_reactivated (k : string) (w : World) (o : Op) :
  o <> OpRegister (PyStr k) -> dict_ok (tokens w) ->
  not_active_in k w -> not_active_in k (exec now fcm w o).
Proof.
  intros Hop Hok Hk. unfold not_active_in in *.
  destruct o as [tok|tok|rs| | |request]; simpl in *; auto.
  - destruct (valid_or_invalid tok) as [Hi | (k' & -> & Hk')].
    { now rewrite (register_token_invalid _ _ Hi). }
    assert (k <> k') as Hne by congruence.
    rewrite (register_token_str _ _ Hk').
    destruct (Dict.get k' (tokens w)) as [o'|] eqn:Hg'.
    { rewrite (register_str_present _ _ _ Hg'). simpl.
      rewrite (get_set_other _ _ _ _ Hne). exact Hk. }
    assert (Dict.get k [(k', new_FCMToken k' (now (clock w))
                               (now (clock w)))] = None) as Hlast.
    { simpl. case_key k' k. reflexivity. }
    destruct (Z.leb_spec (max_tokens w) (Dict.len (tokens w))) as [H|H].
    + rewrite (register_str_full _ _ Hok Hg' H). simpl.
      assert (Dict.get k (filter entry_active (tokens w)) = None) as Hf.
      { rewrite (get_filter _ _ _ Hok).
        destruct (Dict.get k (tokens w)) as [o|] eqn:Hg; [|reflexivity].
        unfold entry_active. simpl. now rewrite (Hk o eq_refl). }
      rewrite (get_app_right _ _ _ Hf), Hlast. discriminate.
    + rewrite (register_str_room _ _ Hg' H). simpl.
      destruct (Dict.get k (tokens w)) as [o|] eqn:Hg.
      * rewrite (get_app_left _ _ _ _ Hg). exact Hk.
      * rewrite (get_app_right _ _ _ Hg), Hlast. discriminate.
  - destruct (Dict.get tok (tokens w)) as [o|] eqn:Ht.
    + destruct (del_present _ _ _ Ht) as (d & Hd & _ & Hget).
      destruct (remove_token_present _ _ _ Ht) as (d' & Hd' & ->).
      assert (d' = d) as -> by congruence. simpl.
      case_key k tok.
      * rewrite (get_del_same _ _ _ Hok Hd). discriminate.
      * rewrite Hget by exact Hne. exact Hk.
    + now rewrite (remove_token_absent _ _ Ht).
  - destruct (update_token_stats_frame rs w) as (w' & -> & Hkeys & _ & _ & H).
    simpl. destruct (Dict.get k (tokens w)) as [o|] eqn:Hg.
    + destruct (H k o Hg) as (o' & -> & Ha).
      intros o2 [= <-]. exact (Ha (Hk o eq_refl)).
    + rewrite (get_same_keys _ _ _ Hkeys Hg). discriminate.
  - destruct (send_push_frame request w) as (resp & w' & -> & Ht & _).
    simpl. now rewrite Ht.
Qed.

(** C7.  Once [update_token_stats] has seen an UNREGISTERED failure for a
    registered identifier, its record is inactive.  An inactive record
    stays stored and inactive under any sequence of result recordings,
    removals of other identifiers, listings, statistics and broadcasts;
    under any sequence of operations without a registration of that
    identifier it is never active again (it may be removed or evicted);
    registering the identifier makes it active. *)
Theorem inactive_until_registered_again
        (k : string) (o : FCMToken) (w : World) :
  Dict.get k (tokens w) = Some o ->
  (forall r, res_token r = Some k -> res_success r = false ->
     res_error_code r = Some "UNREGISTERED" ->
     inactive_in k (snd (update_token_stats now [r] w)))
  /\ (is_active o = false ->
      (forall ops, Forall (keeps_record k) ops ->
         exists o', Dict.get k (tokens (run now fcm ops w)) = Some o'
                    /\ is_active o' = false)
      /\ (dict_ok (tokens w) ->
          forall ops, Forall (fun op => op <> OpRegister (PyStr k)) ops ->
          forall o', Dict.get k (tokens (run now fcm ops w)) = Some o' ->
                     is_active o' = false)
      /\ (k <> "" ->
          exists o',
            Dict.get k (tokens (snd (register_token now (PyStr k) w)))
            = Some o'
            /\ is_active o' = true)).
Proof.
  intros Hg. split; [|intros Ho; split; [|split]].
  - intros r Hr Hs Hc. rewrite update_token_stats_single.
    rewrite (update_one_present _ _ _ _ Hr Hg). simpl.
    eexists. split; [apply get_set_same|].
    unfold recorded. rewrite Hs. simpl.
    now rewrite (proj2 (deactivating_iff r) (or_introl Hc)).
  - intros ops Hops.
    assert (inactive_in k w) as Hin by (now exists o).
    clear Hg Ho. revert w Hin.
    induction Hops as [|op ops Hop _ IH]; intros w Hin; simpl.
    + exact Hin.
    + apply IH. now apply exec_keeps_record.
  - intros Hok ops Hops.
    assert (not_active_in k w) as Hin.
    { intros o1 Hg1. congruence. }
    clear Hg Ho. revert w Hok Hin.
    induction Hops as [|op ops Hop _ IH]; intros w Hok Hin; simpl.
    + exact Hin.
    + apply IH; [now apply exec_dict_ok | now apply exec_not_reactivated].
  - intros Hk. rewrite (register_token_str _ _ Hk).
    rewrite (register_str_present _ _ _ Hg). simpl.
    rewrite get_set_same. now eexists.
Qed.

(** ** The claim about [get_stats] *)

Lemma fold_left_add (l : list Z) (a : Z) :
  fold_left Z.add l a = a + fold_right Z.add 0 l.
Proof.
  revert a. induction l as [|x l IH]; intros a; simpl; [lia|].
  rewrite IH. lia.
Qed.

Lemma sumZ_fold_right (l : list Z) : sumZ l = fold_right Z.add 0 l.
Proof. unfold sumZ. now rewrite fold_left_add. Qed.

Lemma sumZ_ones {A : Type} (l : list A) :
  sumZ (map (fun _ => 1) l) = Z.of_nat (length l).
Proof.
  rewrite sumZ_fold_right. induction l as [|a l IH]; [reflexivity|].
  cbn [map fold_right length]. rewrite IH. lia.
Qed.

Lemma length_filter_split {A : Type} (p : A -> bool) (l : list A) :
  (length (filter p l) + length (filter (fun a => negb (p a)) l)
   = length l)%nat.
Proof.
  induction l as [|a l IH]; simpl; [reflexivity|].
  destruct (p a); simpl; lia.
Qed.

(** C9.  [get_stats] returns without changing the state; [total_tokens] is
    the number of stored records, [active_tokens] the number of records
    with [is_active] true, [inactive_tokens] their difference (which is the
    number of records with [is_active] false), so the total is the sum of
    the two; [total_successful_sends] and [total_failed_sends] are the sums
    of the records' counters. *)
Theorem get_stats_aggregates (w : World) :
  exists s,
    get_stats w = (inr s, w)
    /\ total_tokens s = Z.of_nat (length (tokens w))
    /\ active_tokens s
       = Z.of_nat (length (filter is_active (Dict.values (tokens w))))
    /\ inactive_tokens s = total_tokens s - active_tokens s
    /\ inactive_tokens s
       = Z.of_nat (length (filter (fun o => negb (is_active o))
                                  (Dict.values (tokens w))))
    /\ total_tokens s = active_tokens s + inactive_tokens s
    /\ total_successful_sends s
       = fold_right Z.add 0 (map successful_sends (Dict.values (tokens w)))
    /\ total_failed_sends s
       = fold_right Z.add 0 (map failed_sends (Dict.values (tokens w))).
Proof.
  eexists. split; [reflexivity|]. cbn [total_tokens active_tokens
    inactive_tokens total_successful_sends total_failed_sends].
  rewrite sumZ_ones, !sumZ_fold_right.
  pose proof (length_filter_split is_active (Dict.values (tokens w))) as H.
  unfold Dict.values in *. rewrite length_map in H. unfold Dict.len.
  repeat split; lia.
Qed.

(** ** The claims about the broadcast *)

(** C2.  Whatever the request and the replies of the provider, [send_push]
    (and the broadcast inside it) returns with the registry as it found
    it: the dictionary of records, hence every field of every record, and
    the configured maximum are unchanged. *)
Theorem send_push_keeps_registry (w : World) :
  (forall request,
     tokens (snd (send_push now fcm request w)) = tokens w
     /\ max_tokens (snd (send_push now fcm request w)) = max_tokens w)
  /\ (forall title body,
        tokens (snd (broadcast now fcm title body w)) = tokens w)
  /\ (forall request k,
        Dict.get k (tokens (snd (send_push now fcm request w)))
        = Dict.get k (tokens w)).
Proof.
  split; [|split].
  - intros request.
    destruct (send_push_frame request w) as (resp & w' & -> & Ht & Hm).
    now split.
  - intros title body.
    destruct (broadcast_frame title body w) as (resp & w' & -> & Ht & _).
    exact Ht.
  - intros request k.
    destruct (send_push_frame request w) as (resp & w' & -> & Ht & _).
    simpl. now rewrite Ht.
Qed.

(** C4.  When no identifier is active, the broadcast answers with status
    400 and the error [No active tokens to send to], and the whole state is
    as before: nothing was handed to the provider and the registry is
    unchanged.  The same holds for [send_push] on a request whose body is a
    non-empty JSON object; on any other request [send_push] does not reach
    the broadcast, and the state is unchanged as well. *)
Theorem broadcast_no_recipients (w : World) :
  get_active_tokens w = (inr [], w) ->
  (forall title body,
     broadcast now fcm title body w
     = (inr (ErrorBody "No active tokens to send to", 400), w))
  /\ (forall e d,
        send_push now fcm (inr (PyDict (e :: d))) w
        = (inr (ErrorBody "No active tokens to send to", 400), w))
  /\ (forall request,
        exists resp, send_push now fcm request w = (inr resp, w)
                     /\ snd resp <> 200).
Proof.
  intros Hact.
  assert (forall title body,
            broadcast now fcm title body w
            = (inr (ErrorBody "No active tokens to send to", 400), w))
    as Hb.
  { intros title body. unfold broadcast, bind. now rewrite Hact. }
  split; [exact Hb|]. split.
  - intros e d. unfold send_push, try_except, bind. simpl.
    now rewrite Hb.
  - intros request. unfold send_push, try_except, bind.
    destruct request as [e|data]; simpl.
    + eexists. split; [reflexivity|]. discriminate.
    + destruct (truthy data) eqn:Ht; simpl.
      * destruct data; simpl;
          try (eexists; split; [reflexivity|]; discriminate).
        rewrite Hb. eexists. split; [reflexivity|]. discriminate.
      * eexists. split; [reflexivity|]. discriminate.
Qed.

End ServerFacts.

(** ** Concrete runs *)

(** The scenario of the specification: [tok-A] registered twice, [tok-B]
    removed although never registered, then one broadcast. *)
Example scenario_tokA :
  let w0 := init_world 10000 in
  let '(r1, w1) := register_token clock0 (PyStr "tok-A") w0 in
  let '(r2, w2) := register_token clock0 (PyStr "tok-A") w1 in
  let '(r3, w3) := remove_token "tok-B" w2 in
  let '(r4, w4) :=
    send_push clock0 fcm0
              (inr (PyDict [("title", PyStr "Hi"); ("body", PyStr "Body")]))
              w3 in
  r1 = inr (mkRegisterResult true 1)
  /\ r2 = inr (mkRegisterResult false 1)
  /\ r3 = inr false
  /\ (exists s, r4 = inr (BroadcastBody 1 0 "Broadcast sent to 1 devices"
                                        s [], 200))
  /\ tokens w4 = tokens w2.
Proof. vm_compute. repeat split. now eexists. Qed.

(** C1, as stated, fails: with a maximum of one, registering [tok-A] and then
    [tok-B] reaches a state with two records.  Before the second call the
    size has reached the maximum and the only record is active, so the
    eviction removes nothing and the insertion goes through. *)
Lemma size_bound_counterexample :
  let w1 := run clock0 fcm0 [OpRegister (PyStr "tok-A")] (init_world 1) in
  let w2 := snd (register_token clock0 (PyStr "tok-B") w1) in
  reachable clock0 fcm0 1 w1
  /\ Dict.len (tokens w1) = max_tokens w1
  /\ filter entry_inactive (tokens w1) = []
  /\ w2 = world_over
  /\ reachable clock0 fcm0 1 w2
  /\ max_tokens w2 = 1
  /\ Dict.len (tokens w2) = 2
  /\ ~ (Dict.len (tokens w2) <= max_tokens w2).
Proof.
  cbv zeta. split; [now exists [OpRegister (PyStr "tok-A")]|].
  split; [reflexivity|]. split; [reflexivity|]. split; [reflexivity|].
  split; [now exists register_AB|].
  split; [reflexivity|]. split; [reflexivity|].
  vm_compute. intros H. now apply H.
Qed.

(** at capacity with [tok-A] inactive, registering [tok-C] evicts [tok-A] *)
Lemma register_token_size_bound_witness :
  reachable clock0 fcm0 2 world_A_inactive
  /\ tokens (snd (register_token clock0 (PyStr "tok-C") world_A_inactive))
     = [("tok-B", mkFCMToken "tok-B" "1" "1" 0 0 true);
        ("tok-C", mkFCMToken "tok-C" "2" "2" 0 0 true)].
Proof.
  assert (reachable clock0 fcm0 2 world_A_inactive) as Hr.
  { eexists. reflexivity. }
  split; [exact Hr|].
  rewrite (proj1 (register_token_size_bound clock0 fcm0 2 world_A_inactive
                    (PyStr "tok-C") Hr) "tok-C").
  - reflexivity.
  - reflexivity.
  - discriminate.
  - reflexivity.
  - vm_compute. discriminate.
Defined.

(** two inactive records at a maximum of two: [tok-C] ends up alone *)
Lemma register_token_evicts_all_witness :
  dict_ok (tokens world_all_inactive)
  /\ Dict.len (tokens world_all_inactive) = max_tokens world_all_inactive
  /\ register_token clock0 (PyStr "tok-C") world_all_inactive
     = (inr (mkRegisterResult true 1),
        mkWorld [("tok-C", mkFCMToken "tok-C" "2" "2" 0 0 true)] 2 3%nat []).
Proof.
  split; [reflexivity|]. split; [reflexivity|].
  apply (register_token_evicts_all clock0 "tok-C" world_all_inactive).
  - discriminate.
  - reflexivity.
  - reflexivity.
  - intros o [<- | [<- | []]]; reflexivity.
  - reflexivity.
Defined.

(** [tok-A] registered twice in the initial state *)
Lemma register_token_twice_witness :
  dict_ok (tokens (init_world 10000))
  /\ exists b c o w1 w2,
       register_token clock0 (PyStr "tok-A") (init_world 10000)
       = (inr (mkRegisterResult b c), w1)
       /\ (b = true <-> Dict.get "tok-A" (tokens (init_world 10000)) = None)
       /\ register_token clock0 (PyStr "tok-A") w1
          = (inr (mkRegisterResult false c), w2)
       /\ c = Dict.len (tokens w1)
       /\ Dict.len (tokens w2) = Dict.len (tokens w1)
       /\ Dict.keys (tokens w2) = Dict.keys (tokens w1)
       /\ Dict.get "tok-A" (tokens w1) = Some o
       /\ Dict.get "tok-A" (tokens w2)
          = Some (mkFCMToken (token o) (registered_at o) (clock0 (clock w1))
                             (successful_sends o) (failed_sends o) true)
       /\ forall k', k' <> "tok-A" ->
            Dict.get k' (tokens w2) = Dict.get k' (tokens w1).
Proof.
  split; [reflexivity|].
  apply (register_token_twice clock0 "tok-A" (init_world 10000)).
  - discriminate.
  - reflexivity.
Defined.

(** a number instead of a string is refused and nothing changes *)
Lemma register_token_invalid_input_witness :
  dict_ok (tokens world_AB)
  /\ register_token clock0 (PyInt 5) world_AB
     = (inl (ValueError "Invalid token provided"), world_AB).
Proof.
  split; [reflexivity|].
  apply (proj2 (register_token_invalid_input clock0 (PyInt 5) world_AB
                  eq_refl)).
  right. reflexivity.
Defined.

(** at capacity, re-registering [tok-B] leaves the inactive [tok-A] stored *)
Lemma register_token_present_no_eviction_witness :
  max_tokens world_A_inactive <= Dict.len (tokens world_A_inactive)
  /\ exists w',
       register_token clock0 (PyStr "tok-B") world_A_inactive
       = (inr (mkRegisterResult false 2), w')
       /\ Dict.get "tok-A" (tokens w')
          = Some (mkFCMToken "tok-A" "0" "0" 0 1 false).
Proof.
  assert (max_tokens world_A_inactive <= Dict.len (tokens world_A_inactive))
    as Hfull.
  { vm_compute. discriminate. }
  split; [exact Hfull|].
  destruct (register_token_present_no_eviction clock0 "tok-B"
              (mkFCMToken "tok-B" "1" "1" 0 0 true) world_A_inactive)
    as (w' & Hrun & _ & Hother & _).
  - discriminate.
  - reflexivity.
  - exact Hfull.
  - exists w'. split; [exact Hrun|]. rewrite Hother; [reflexivity|].
    discriminate.
Defined.

(** recording a failure for [tok-A] returns normally *)
Lemma update_token_stats_outcomes_witness :
  fst (update_token_stats clock0 [unregistered_failure "tok-A"] world_AB)
  = inr tt.
Proof.
  exact (proj1 (update_token_stats_outcomes clock0)
               [unregistered_failure "tok-A"] world_AB).
Defined.

(** a later success for the inactive [tok-A] does not activate it *)
Lemma inactive_until_registered_again_witness :
  Dict.get "tok-A" (tokens world_A_inactive)
  = Some (mkFCMToken "tok-A" "0" "0" 0 1 false)
  /\ exists o',
       Dict.get "tok-A"
         (tokens (run clock0 fcm0
                      [OpUpdateStats [mkSendResult true (Some "id") None
                                                   (Some "tok-A") None];
                       OpRemove "tok-B"; OpGetActive; OpGetStats]
                      world_A_inactive))
       = Some o'
       /\ is_active o' = false.
Proof.
  split; [reflexivity|].
  apply (proj2 (inactive_until_registered_again clock0 fcm0 "tok-A"
                  (mkFCMToken "tok-A" "0" "0" 0 1 false) world_A_inactive
                  eq_refl) eq_refl).
  repeat constructor. discriminate.
Defined.

(** the statistics of a registry with one active and one inactive record *)
Lemma get_stats_aggregates_witness :
  exists s, get_stats world_A_inactive = (inr s, world_A_inactive)
            /\ total_tokens s = active_tokens s + inactive_tokens s.
Proof.
  destruct (get_stats_aggregates world_A_inactive)
    as (s & Hrun & _ & _ & _ & _ & Hsum & _).
  exists s. now split.
Defined.

(** a broadcast to [tok-A] and [tok-B], the second one failing *)
Lemma send_push_keeps_registry_witness :
  tokens (snd (send_push clock0 fcm0 (inr (PyDict [("title", PyStr "Hi")]))
                         world_AB))
  = tokens world_AB.
Proof.
  exact (proj1 (proj1 (send_push_keeps_registry clock0 fcm0 world_AB)
                      (inr (PyDict [("title", PyStr "Hi")])))).
Defined.

(** a broadcast when both records are inactive *)
Lemma broadcast_no_recipients_witness :
  get_active_tokens world_all_inactive = (inr [], world_all_inactive)
  /\ broadcast clock0 fcm0 (PyStr "Hi") (PyStr "Body") world_all_inactive
     = (inr (ErrorBody "No active tokens to send to", 400),
        world_all_inactive).
Proof.
  split; [reflexivity|].
  exact (proj1 (broadcast_no_recipients clock0 fcm0 world_all_inactive
                  eq_refl) (PyStr "Hi") (PyStr "Body")).
Defined.

(** * Further properties of the registry *)

Section DictMore.
Context {V : Type}.
Implicit Types (d : Dict.t V) (k : string) (v : V).

Lemma get_In_pair k d v : Dict.get k d = Some v -> In (k, v) d.
Proof.
  induction d as [|[a x] d IH]; simpl; [discriminate|].
  case_key a k; intros H.
  - left. congruence.
  - right. auto.
Qed.

Lemma contains_mem_keys k d : Dict.contains k d = mem_str k (Dict.keys d).
Proof.
  unfold Dict.contains. destruct (Dict.get k d) as [v|] eqn:Hg.
  - destruct (mem_str k (Dict.keys d)) eqn:Hm; [reflexivity|].
    apply mem_str_keys_get in Hm. congruence.
  - symmetry. now apply mem_str_keys_get.
Qed.

Lemma Forall_set (P : string * V -> Prop) k v d :
  Forall P d -> P (k, v) -> Forall P (Dict.set k v d).
Proof.
  intros Hd Hv. induction Hd as [|[a x] d Ha Hd IH]; simpl.
  - now constructor.
  - case_key a k; constructor; auto.
Qed.

Lemma Forall_del (P : string * V -> Prop) k d d' :
  Dict.del k d = Some d' -> Forall P d -> Forall P d'.
Proof.
  intros Hdel Hd. revert d' Hdel.
  induction Hd as [|[a x] d Ha Hd IH]; simpl; intros d'; [discriminate|].
  case_key a k.
  - now intros [= <-].
  - destruct (Dict.del k d) as [d0|]; simpl; [|discriminate].
    intros [= <-]. constructor; auto.
Qed.

Lemma Forall_filter_keep (P : string * V -> Prop) (p : string * V -> bool) d :
  Forall P d -> Forall P (filter p d).
Proof.
  intros Hd. induction Hd as [|a d Ha Hd IH]; simpl; [constructor|].
  destruct (p a); [constructor|]; auto.
Qed.

Lemma del_last k v d :
  Dict.get k d = None -> Dict.del k (d ++ [(k, v)]) = Some d.
Proof.
  intros Hg. rewrite (del_first _ _ _ _ Hg). now rewrite app_nil_r.
Qed.

(** the entries whose key is not [k] *)
Lemma filter_absent k d :
  Dict.get k d = None ->
  filter (fun kv => negb (fst kv =? k)%string) d = d.
Proof.
  induction d as [|[a x] d IH]; simpl; [reflexivity|].
  case_key a k; intros H; [discriminate|]. simpl. now rewrite IH.
Qed.

Lemma del_filter k d d' :
  dict_ok d -> Dict.del k d = Some d' ->
  d' = filter (fun kv => negb (fst kv =? k)%string) d.
Proof.
  revert d'. induction d as [|[a x] d IH]; simpl; intros d' Hok;
    [discriminate|].
  apply dict_ok_cons in Hok as [Ha Hok]. case_key a k.
  - intros [= <-]. simpl. now rewrite filter_absent.
  - destruct (Dict.del k d) as [d0|] eqn:Hd; simpl; [|discriminate].
    intros [= <-]. simpl. f_equal. now apply IH.
Qed.
End DictMore.

Section RegistryMore.
Variable now : nat -> string.
Variable fcm : list Message -> Message -> FcmReply.

(** X1.  [remove_token] returns [True] exactly when the identifier is
    stored.  Afterwards the identifier is absent, the other entries are the
    same in the same order, the size has gone down by one if and only if
    [True] was returned, nothing else in the state has changed, and a second
    removal returns [False] without any effect. *)
Theorem remove_token_outcome (k : string) (w : World) :
  dict_ok (tokens w) ->
  exists b w',
    remove_token k w = (inr b, w')
    /\ b = Dict.contains k (tokens w)
    /\ tokens w'
       = filter (fun kv => negb (fst kv =? k)%string) (tokens w)
    /\ Dict.get k (tokens w') = None
    /\ (forall k', k' <> k ->
          Dict.get k' (tokens w') = Dict.get k' (tokens w))
    /\ Dict.len (tokens w') = Dict.len (tokens w) - (if b then 1 else 0)
    /\ max_tokens w' = max_tokens w /\ clock w' = clock w
    /\ outbox w' = outbox w
    /\ remove_token k w' = (inr false, w').
Proof.
  intros Hok. destruct (Dict.get k (tokens w)) as [o|] eqn:Hg.
  - destruct (del_present _ _ _ Hg) as (d & Hd & Hlen & Hget).
    destruct (remove_token_present _ _ _ Hg) as (d' & Hd' & ->).
    assert (d' = d) as -> by congruence.
    pose proof (get_del_same _ _ _ Hok Hd) as Hnone.
    exists true, (with_tokens w d). simpl.
    rewrite (contains_get_some _ _ _ Hg).
    repeat split; auto.
    + exact (del_filter _ _ _ Hok Hd).
    + unfold Dict.len. rewrite Hlen. lia.
    + now apply remove_token_absent.
  - exists false, w. rewrite (remove_token_absent _ _ Hg).
    rewrite (contains_get_none _ _ Hg), (filter_absent _ _ Hg).
    repeat split; auto. lia.
Qed.

(** X2.  Registering an identifier that is not stored and removing it again
    gives back the registry as it was when the size was below the maximum;
    at or above the maximum the registration has evicted the inactive
    records, and those do not come back. *)
Theorem register_then_remove (k : string) (w : World) :
  k <> "" -> dict_ok (tokens w) -> Dict.get k (tokens w) = None ->
  exists r w1 w2,
    register_token now (PyStr k) w = (inr r, w1)
    /\ remove_token k w1 = (inr true, w2)
    /\ tokens w2 = (if max_tokens w <=? Dict.len (tokens w)
                    then filter entry_active (tokens w)
                    else tokens w)
    /\ (Dict.len (tokens w) < max_tokens w -> tokens w2 = tokens w)
    /\ clock w2 = S (clock w).
Proof.
  intros Hk Hok Hg. rewrite (register_token_str _ _ _ Hk).
  set (o := new_FCMToken k (now (clock w)) (now (clock w))).
  assert (forall d, Dict.get k d = None ->
            remove_token k (with_tokens (tick w) (d ++ [(k, o)]))
            = (inr true, with_tokens (tick w) d)) as Hrm.
  { intros d Hd.
    unfold remove_token, bind, get_tokens, delitem. simpl.
    assert (Dict.get k (d ++ [(k, o)]) = Some o) as Ho.
    { rewrite (get_app_right _ _ _ Hd). simpl. now rewrite String.eqb_refl. }
    rewrite (contains_get_some _ _ _ Ho). simpl.
    now rewrite (del_last _ _ _ Hd). }
  destruct (Z.leb_spec (max_tokens w) (Dict.len (tokens w))) as [H|H].
  - rewrite (register_str_full _ _ _ Hok Hg H). do 3 eexists.
    split; [reflexivity|]. split.
    + apply Hrm. now apply get_filter_none.
    + simpl. repeat split. lia.
  - rewrite (register_str_room _ _ _ Hg H). do 3 eexists.
    split; [reflexivity|]. split.
    + now apply Hrm.
    + simpl. repeat split.
Qed.

(** X3.  [register_token] never removes or changes an active record of
    another identifier, whatever the size of the registry; an inactive record
    of another identifier is either left as it is or evicted. *)
Theorem register_token_spares_active
        (tok : PyVal) (k : string) (o : FCMToken) (w : World) :
  dict_ok (tokens w) -> tok <> PyStr k ->
  Dict.get k (tokens w) = Some o ->
  (is_active o = true ->
   Dict.get k (tokens (snd (register_token now tok w))) = Some o)
  /\ (is_active o = false ->
      Dict.get k (tokens (snd (register_token now tok w))) = Some o
      \/ Dict.get k (tokens (snd (register_token now tok w))) = None).
Proof.
  intros Hok Htok Hg.
  destruct (valid_or_invalid tok) as [Hi | (k' & -> & Hk')].
  { rewrite (register_token_invalid _ _ _ Hi). simpl. tauto. }
  assert (k <> k') as Hne by congruence.
  rewrite (register_token_str _ _ _ Hk').
  destruct (Dict.get k' (tokens w)) as [o'|] eqn:Hg'.
  { rewrite (register_str_present _ _ _ _ Hg'). simpl.
    rewrite (get_set_other _ _ _ _ Hne). tauto. }
  destruct (Z.leb_spec (max_tokens w) (Dict.len (tokens w))) as [H|H].
  - rewrite (register_str_full _ _ _ Hok Hg' H). simpl.
    pose proof (get_filter k entry_active _ Hok) as Hf. rewrite Hg in Hf.
    unfold entry_active in Hf. simpl in Hf.
    destruct (is_active o).
    + split; [intros _ | discriminate].
      now apply get_app_left.
    + split; [discriminate | intros _]. right.
      rewrite (get_app_right _ _ _ Hf). simpl. case_key k' k. reflexivity.
  - rewrite (register_str_room _ _ _ Hg' H). simpl.
    rewrite (get_app_left _ _ _ _ Hg). tauto.
Qed.

(** X4.  On a dictionary with distinct keys [_cleanup_inactive_tokens] never
    raises; it keeps exactly the active records, in their order, touches
    nothing else, and running it a second time changes nothing. *)
Theorem cleanup_inactive_tokens_outcome (w : World) :
  dict_ok (tokens w) ->
  exists w',
    _cleanup_inactive_tokens w = (inr tt, w')
    /\ tokens w' = filter entry_active (tokens w)
    /\ (forall k o, Dict.get k (tokens w') = Some o
                    <-> Dict.get k (tokens w) = Some o /\ is_active o = true)
    /\ max_tokens w' = max_tokens w /\ clock w' = clock w
    /\ outbox w' = outbox w
    /\ _cleanup_inactive_tokens w' = (inr tt, w').
Proof.
  intros Hok. rewrite (cleanup_run w Hok). eexists.
  split; [reflexivity|]. simpl. split; [reflexivity|]. split.
  - intros k o. rewrite (get_filter _ _ _ Hok).
    destruct (Dict.get k (tokens w)) as [o0|]; unfold entry_active; simpl.
    + destruct (is_active o0) eqn:Ha; split.
      * intros [= <-]. now split.
      * now intros [? _].
      * discriminate.
      * intros [[= <-] H]. congruence.
    + split; [discriminate | now intros [? _]].
  - repeat split.
    rewrite cleanup_run by (simpl; now apply dict_ok_filter). simpl.
    unfold with_tokens. simpl. do 2 f_equal.
    apply filter_all_true. intros kv Hin.
    apply filter_In in Hin. tauto.
Qed.

(** *** The invariant of the stored records *)

Lemma record_ok_get (d : Dict.t FCMToken) (k : string) (o : FCMToken) :
  Forall record_ok d -> Dict.get k d = Some o -> record_ok (k, o).
Proof.
  intros Hd Hg. rewrite Forall_forall in Hd. apply Hd.
  now apply get_In_pair.
Qed.

Lemma recorded_ok (r : SendResult) (k t : string) (o : FCMToken) :
  record_ok (k, o) -> record_ok (k, recorded r o t).
Proof.
  unfold record_ok, recorded. simpl. intros (H1 & H2 & H3 & H4).
  destruct (res_success r); simpl; repeat split; auto; lia.
Qed.

Lemma update_token_stats_cons (r : SendResult) (rs : list SendResult)
      (w : World) :
  update_token_stats now (r :: rs) w
  = update_token_stats now rs (snd (update_one now r w)).
Proof.
  unfold update_token_stats. simpl. unfold bind.
  destruct (update_one_frame now r w) as (w' & -> & _). reflexivity.
Qed.

Lemma update_one_records (r : SendResult) (w : World) :
  Forall record_ok (tokens w) ->
  Forall record_ok (tokens (snd (update_one now r w))).
Proof.
  intros Hd. destruct (res_token r) as [k|] eqn:Hr.
  - destruct (Dict.get k (tokens w)) as [o|] eqn:Hg.
    + rewrite (update_one_present _ _ _ _ _ Hr Hg). simpl.
      apply Forall_set; [exact Hd|].
      apply recorded_ok. exact (record_ok_get _ _ _ Hd Hg).
    + rewrite update_one_absent; [exact Hd|]. intros k' Hk'. congruence.
  - rewrite update_one_absent; [exact Hd|]. intros k' Hk'. congruence.
Qed.

Lemma update_token_stats_records (rs : list SendResult) (w : World) :
  Forall record_ok (tokens w) ->
  Forall record_ok (tokens (snd (update_token_stats now rs w))).
Proof.
  revert w. induction rs as [|r rs IH]; intros w Hd; [exact Hd|].
  rewrite update_token_stats_cons. apply IH. now apply update_one_records.
Qed.

Lemma exec_records_ok (w : World) (o : Op) :
  dict_ok (tokens w) -> Forall record_ok (tokens w) ->
  Forall record_ok (tokens (exec now fcm w o)).
Proof.
  intros Hok Hd. destruct o as [tok|tok|rs| | |request]; simpl; auto.
  - destruct (valid_or_invalid tok) as [Hi | (k & -> & Hk)].
    { now rewrite (register_token_invalid _ _ _ Hi). }
    rewrite (register_token_str _ _ _ Hk).
    assert (record_ok (k, new_FCMToken k (now (clock w)) (now (clock w))))
      as Hnew.
    { unfold record_ok. simpl. repeat split; auto; lia. }
    destruct (Dict.get k (tokens w)) as [o|] eqn:Hg.
    + rewrite (register_str_present _ _ _ _ Hg). simpl.
      apply Forall_set; [exact Hd|].
      destruct (record_ok_get _ _ _ Hd Hg) as (H1 & H2 & H3 & H4).
      unfold record_ok. simpl in *. repeat split; auto.
    + destruct (Z.leb_spec (max_tokens w) (Dict.len (tokens w))) as [H|H].
      * rewrite (register_str_full _ _ _ Hok Hg H). simpl.
        apply Forall_app. split; [now apply Forall_filter_keep|].
        now constructor.
      * rewrite (register_str_room _ _ _ Hg H). simpl.
        apply Forall_app. split; [exact Hd | now constructor].
  - destruct (Dict.get tok (tokens w)) as [o|] eqn:Hg.
    + destruct (remove_token_present _ _ _ Hg) as (d & Hdel & ->).
      exact (Forall_del _ _ _ _ Hdel Hd).
    + now rewrite (remove_token_absent _ _ Hg).
  - now apply update_token_stats_records.
  - destruct (send_push_frame now fcm request w) as (resp & w' & -> & Ht & _).
    simpl. now rewrite Ht.
Qed.

Lemma run_registry_ok (ops : list Op) (w : World) :
  registry_ok (tokens w) -> registry_ok (tokens (run now fcm ops w)).
Proof.
  revert w. induction ops as [|o ops IH]; intros w [Hok Hd]; simpl.
  - now split.
  - apply IH. split; [now apply exec_dict_ok | now apply exec_records_ok].
Qed.

(** X5.  In every state the server can reach, the keys of the registry are
    pairwise distinct and not empty, every record carries its own key in
    [token], and both counters are non-negative. *)
Theorem reachable_registry_ok (maxtok : Z) (w : World) :
  reachable now fcm maxtok w ->
  dict_ok (tokens w)
  /\ forall k o, Dict.get k (tokens w) = Some o ->
       token o = k /\ k <> ""
       /\ 0 <= successful_sends o /\ 0 <= failed_sends o.
Proof.
  intros [ops ->].
  destruct (run_registry_ok ops (init_world maxtok)) as [Hok Hd].
  { split; [reflexivity | constructor]. }
  split; [exact Hok|]. intros k o Hg.
  exact (record_ok_get _ _ _ Hd Hg).
Qed.

(** *** get_active_tokens *)

Lemma active_tokens_keys (d : Dict.t FCMToken) :
  Forall record_ok d ->
  map token (filter is_active (Dict.values d))
  = Dict.keys (filter entry_active d).
Proof.
  intros Hd. induction Hd as [|[k o] d Ha Hd IH]; [reflexivity|].
  simpl. unfold entry_active at 1. simpl.
  destruct (is_active o); simpl; [|exact IH].
  destruct Ha as [Ht _]. simpl in Ht. rewrite Ht. f_equal. exact IH.
Qed.

(** X6.  When the registry is well formed, [get_active_tokens] returns the
    keys of the active records in the order of the registry, each once: an
    identifier is listed exactly when it is stored with [is_active] true.
    The state is unchanged, and the length of the list is the number
    [get_stats] reports as [active_tokens]. *)
Theorem get_active_tokens_outcome (w : World) :
  registry_ok (tokens w) ->
  exists l,
    get_active_tokens w = (inr l, w)
    /\ l = Dict.keys (filter entry_active (tokens w))
    /\ nodupb l = true
    /\ (forall k, In k l <->
                  exists o, Dict.get k (tokens w) = Some o
                            /\ is_active o = true)
    /\ exists s, get_stats w = (inr s, w)
                 /\ active_tokens s = Z.of_nat (length l).
Proof.
  intros [Hok Hd]. rewrite get_active_tokens_run, (active_tokens_keys _ Hd).
  eexists. split; [reflexivity|]. split; [reflexivity|]. split; [|split].
  - exact (dict_ok_filter entry_active _ Hok).
  - intros k. rewrite <- mem_str_In.
    rewrite <- contains_mem_keys. unfold Dict.contains.
    rewrite (get_filter _ _ _ Hok).
    destruct (Dict.get k (tokens w)) as [o|]; unfold entry_active; simpl.
    + split.
      * intros H. destruct (is_active o) eqn:Ha; [now exists o | discriminate].
      * intros (o' & [= <-] & H). now rewrite H.
    + split; [discriminate | intros (o' & H & _); discriminate].
  - eexists. split; [reflexivity|]. simpl.
    rewrite sumZ_ones, <- (active_tokens_keys _ Hd).
    unfold Dict.keys. now rewrite !length_map.
Qed.

(** *** update_token_stats as a whole *)

Lemma update_one_at (k : string) (o : FCMToken) (r : SendResult)
      (w : World) :
  Dict.get k (tokens w) = Some o ->
  Dict.get k (tokens (snd (update_one now r w)))
  = Some (if outcome_for k r then recorded r o (now (clock w)) else o).
Proof.
  intros Hg. unfold outcome_for. destruct (res_token r) as [k'|] eqn:Hr.
  - case_key k' k.
    + rewrite (update_one_present _ _ _ _ _ Hr Hg). simpl.
      apply get_set_same.
    + destruct (Dict.get k' (tokens w)) as [o'|] eqn:Hg'.
      * rewrite (update_one_present _ _ _ _ _ Hr Hg'). simpl.
        rewrite get_set_other by congruence. exact Hg.
      * rewrite update_one_absent; [exact Hg|]. intros k2 Hk2. congruence.
  - rewrite update_one_absent; [exact Hg|]. intros k2 Hk2. congruence.
Qed.

(** X7.  After [update_token_stats] on any list of outcomes, a stored record
    has gained one [successful_sends] per successful outcome naming it and
    one [failed_sends] per failed outcome naming it; it is active exactly
    when it was active and no failed outcome naming it had the code
    UNREGISTERED or INVALID_ARGUMENT; [token] and [registered_at] are
    unchanged, and [last_active] is unchanged when no success named it. *)
Theorem update_token_stats_counts
        (k : string) (o : FCMToken) (rs : list SendResult) (w : World) :
  Dict.get k (tokens w) = Some o ->
  exists o',
    Dict.get k (tokens (snd (update_token_stats now rs w))) = Some o'
    /\ successful_sends o' = successful_sends o + successes_for k rs
    /\ failed_sends o' = failed_sends o + failures_for k rs
    /\ is_active o' = is_active o && negb (deactivated_by k rs)
    /\ token o' = token o /\ registered_at o' = registered_at o
    /\ (successes_for k rs = 0 -> last_active o' = last_active o).
Proof.
  revert o w. induction rs as [|r rs IH]; intros o w Hg.
  - exists o. simpl. unfold successes_for, failures_for. simpl.
    rewrite andb_true_r. repeat split; auto; lia.
  - rewrite update_token_stats_cons.
    destruct (IH _ _ (update_one_at k o r w Hg))
      as (o' & Hg' & Hs & Hf & Ha & Ht & Hr & Hl).
    exists o'. split; [exact Hg'|].
    clear IH Hg Hg'.
    unfold successes_for, failures_for, deactivated_by, recorded in *.
    cbn [filter existsb].
    destruct (outcome_for k r); [|cbn [andb orb]; repeat split; auto].
    destruct (res_success r); [|destruct (deactivating r)];
      cbn [andb negb orb length token registered_at last_active
           successful_sends failed_sends is_active] in *;
      rewrite Hs, Hf, Ha, Ht, Hr, ?Nat2Z.inj_succ, ?andb_false_r;
      repeat split; auto; try lia.
Qed.

Lemma sum_set (f : FCMToken -> Z) (k : string) (v o : FCMToken)
      (d : Dict.t FCMToken) :
  Dict.get k d = Some o ->
  sumZ (map f (Dict.values (Dict.set k v d)))
  = sumZ (map f (Dict.values d)) - f o + f v.
Proof.
  rewrite !sumZ_fold_right.
  induction d as [|[a x] d IH]; simpl; [discriminate|].
  case_key a k; intros H; simpl.
  - injection H as ->. lia.
  - rewrite (IH H). lia.
Qed.

Lemma outcome_in_keys (d d' : Dict.t FCMToken) (r : SendResult) :
  Dict.keys d' = Dict.keys d -> outcome_in d' r = outcome_in d r.
Proof.
  intros Hk. unfold outcome_in. destruct (res_token r) as [k|]; [|reflexivity].
  now rewrite !contains_mem_keys, Hk.
Qed.

Lemma update_one_totals (r : SendResult) (w : World) :
  let w' := snd (update_one now r w) in
  let hit (b : bool) := if outcome_in (tokens w) r && b then 1 else 0 in
  sumZ (map successful_sends (Dict.values (tokens w')))
  = sumZ (map successful_sends (Dict.values (tokens w)))
    + hit (res_success r)
  /\ sumZ (map failed_sends (Dict.values (tokens w')))
     = sumZ (map failed_sends (Dict.values (tokens w)))
       + hit (negb (res_success r))
  /\ Dict.keys (tokens w') = Dict.keys (tokens w).
Proof.
  cbv zeta. unfold outcome_in. destruct (res_token r) as [k|] eqn:Hr.
  - destruct (Dict.get k (tokens w)) as [o|] eqn:Hg.
    + rewrite (update_one_present _ _ _ _ _ Hr Hg). simpl.
      rewrite (contains_get_some _ _ _ Hg), !(sum_set _ _ _ _ _ Hg).
      split; [|split; [|exact (keys_set_present _ _ _ _ Hg)]];
        unfold recorded; destruct (res_success r); simpl; lia.
    + rewrite update_one_absent by (intros k' Hk'; congruence).
      rewrite (contains_get_none _ _ Hg). simpl. repeat split; lia.
  - rewrite update_one_absent by (intros k' Hk'; congruence).
    simpl. repeat split; lia.
Qed.

(** X8.  [update_token_stats] and [get_stats] agree: after recording a list
    of outcomes, [total_successful_sends] has grown by the number of
    successful outcomes that name a stored identifier,
    [total_failed_sends] by the number of failed ones that do, and
    [total_tokens] is the same; outcomes naming no stored identifier count
    for nothing. *)
Theorem update_token_stats_totals (rs : list SendResult) (w : World) :
  exists s s',
    get_stats w = (inr s, w)
    /\ get_stats (snd (update_token_stats now rs w))
       = (inr s', snd (update_token_stats now rs w))
    /\ total_tokens s' = total_tokens s
    /\ total_successful_sends s'
       = total_successful_sends s
         + Z.of_nat (length (filter (fun r => outcome_in (tokens w) r
                                              && res_success r) rs))
    /\ total_failed_sends s'
       = total_failed_sends s
         + Z.of_nat (length (filter (fun r => outcome_in (tokens w) r
                                              && negb (res_success r)) rs)).
Proof.
  do 2 eexists. split; [reflexivity|]. split; [reflexivity|].
  cbn [total_tokens total_successful_sends total_failed_sends].
  revert w. induction rs as [|r rs IH]; intros w.
  - simpl. repeat split; lia.
  - rewrite update_token_stats_cons.
    destruct (update_one_totals r w) as (Hs & Hf & Hk).
    destruct (IH (snd (update_one now r w))) as (Ht' & Hs' & Hf').
    rewrite Ht', Hs', Hf', Hs, Hf.
    rewrite !(filter_ext _ _ (fun r0 => f_equal2 andb
                (outcome_in_keys _ _ r0 Hk) eq_refl)).
    split.
    + unfold Dict.len. f_equal.
      rewrite <- (length_map fst), <- (length_map fst (tokens w)).
      now f_equal.
    + cbn [filter].
      destruct (outcome_in (tokens w) r), (res_success r);
        cbn [andb negb length]; rewrite ?Nat2Z.inj_succ; split; lia.
Qed.

(** *** The registry as the routes drive it *)

Lemma exec_all_active (w : World) (o : Op) :
  served o -> dict_ok (tokens w) ->
  Forall (fun kv => entry_active kv = true) (tokens w) ->
  Forall (fun kv => entry_active kv = true) (tokens (exec now fcm w o)).
Proof.
  intros Hs Hok Hd. destruct o as [tok|tok|rs| | |request]; simpl in *; auto.
  - destruct (valid_or_invalid tok) as [Hi | (k & -> & Hk)].
    { now rewrite (register_token_invalid _ _ _ Hi). }
    rewrite (register_token_str _ _ _ Hk).
    destruct (Dict.get k (tokens w)) as [o|] eqn:Hg.
    + rewrite (register_str_present _ _ _ _ Hg). simpl.
      now apply Forall_set.
    + destruct (Z.leb_spec (max_tokens w) (Dict.len (tokens w))) as [H|H].
      * rewrite (register_str_full _ _ _ Hok Hg H). simpl.
        apply Forall_app. split; [now apply Forall_filter_keep|].
        now constructor.
      * rewrite (register_str_room _ _ _ Hg H). simpl.
        apply Forall_app. split; [exact Hd | now constructor].
  - destruct (Dict.get tok (tokens w)) as [o|] eqn:Hg.
    + destruct (remove_token_present _ _ _ Hg) as (d & Hdel & ->).
      exact (Forall_del _ _ _ _ Hdel Hd).
    + now rewrite (remove_token_absent _ _ Hg).
  - contradiction.
  - destruct (send_push_frame now fcm request w) as (resp & w' & -> & Ht & _).
    simpl. now rewrite Ht.
Qed.

(** X9.  As long as [update_token_stats] is not called (no route calls it),
    every stored record is active, whatever is registered, removed or sent.
    The eviction then never removes anything: registering a new identifier
    always makes the registry one record larger, whatever the configured
    maximum. *)
Theorem served_registry_all_active (maxtok : Z) (ops : list Op) :
  Forall served ops ->
  (forall o, In o (Dict.values (tokens (run now fcm ops (init_world maxtok))))
             -> is_active o = true)
  /\ forall k, k <> "" ->
       Dict.get k (tokens (run now fcm ops (init_world maxtok))) = None ->
       Dict.len (tokens (snd (register_token now (PyStr k)
                                 (run now fcm ops (init_world maxtok)))))
       = Dict.len (tokens (run now fcm ops (init_world maxtok))) + 1.
Proof.
  intros Hops.
  assert (forall w, dict_ok (tokens w) ->
            Forall (fun kv => entry_active kv = true) (tokens w) ->
            dict_ok (tokens (run now fcm ops w))
            /\ Forall (fun kv => entry_active kv = true)
                      (tokens (run now fcm ops w))) as Hrun.
  { induction Hops as [|o ops Ho _ IH]; intros w Hok Hd; simpl; [now split|].
    apply IH; [now apply exec_dict_ok | now apply exec_all_active]. }
  destruct (Hrun (init_world maxtok) eq_refl (Forall_nil _)) as [Hok Hd].
  set (w := run now fcm ops (init_world maxtok)) in *.
  rewrite Forall_forall in Hd. split.
  - intros o Ho. apply in_map_iff in Ho as ([k o'] & <- & Hin).
    exact (Hd _ Hin).
  - intros k Hk Hg. rewrite (register_token_str _ _ _ Hk).
    unfold Dict.len.
    destruct (Z.leb_spec (max_tokens w) (Dict.len (tokens w))) as [H|H].
    + rewrite (register_str_full _ _ _ Hok Hg H). simpl.
      rewrite (filter_all_true _ _ Hd), length_app, Nat2Z.inj_add.
      reflexivity.
    + rewrite (register_str_room _ _ _ Hg H). simpl.
      now rewrite length_app, Nat2Z.inj_add.
Qed.

End RegistryMore.

(** * Further properties of the send path *)

Section SendMore.
Variable now : nat -> string.
Variable fcm : list Message -> Message -> FcmReply.

(** X10.  [send_message] never raises: it hands exactly one message to the
    provider and turns the reply into a result.  The message carries the
    given token, title and body; its data has [timestamp] set to the time
    read and [server] set to [python-fcm], over whatever the caller passed
    under these keys, and the caller's other keys as they were.  The result
    names the token; it is a success exactly when the provider returned, and
    it carries a code that [update_token_stats] treats as deactivating
    exactly when the provider raised [InvalidArgumentError] or
    [UnregisteredError].  The registry is untouched. *)
Theorem send_message_outcome (tok : string) (title body : PyVal)
        (data : option (Dict.t string)) (w : World) :
  exists r m,
    send_message now fcm tok title body data w
    = (inr r, mkWorld (tokens w) (max_tokens w) (S (clock w))
                      (outbox w ++ [m]))
    /\ msg_token m = tok /\ msg_title m = title /\ msg_body m = body
    /\ Dict.get "timestamp" (msg_data m) = Some (now (clock w))
    /\ Dict.get "server" (msg_data m) = Some "python-fcm"
    /\ (forall key, key <> "timestamp" -> key <> "server" ->
          Dict.get key (msg_data m)
          = match data with Some d => Dict.get key d | None => None end)
    /\ res_token r = Some tok
    /\ (res_success r = true
        <-> exists response, fcm (outbox w) m = Delivered response)
    /\ (deactivating r = true
        <-> fcm (outbox w) m = InvalidArgumentError
            \/ fcm (outbox w) m = UnregisteredError)
    /\ (forall text, fcm (outbox w) m = OtherError text ->
          res_error r = Some text /\ res_error_code r = Some "UNKNOWN").
Proof.
  unfold send_message, bind, datetime_now, messaging_send.
  cbn [tokens max_tokens clock outbox].
  set (md := match data with Some (e :: d) => e :: d | _ => [] end).
  assert (forall key, Dict.get key md
                      = match data with
                        | Some d => Dict.get key d
                        | None => None
                        end) as Hmd.
  { intros key. subst md. now destruct data as [[|e d]|]. }
  set (m := mkMessage title body
              (Dict.set "server" "python-fcm"
                 (Dict.set "timestamp" (now (clock w)) md)) tok).
  assert (Dict.get "timestamp" (msg_data m) = Some (now (clock w))
          /\ Dict.get "server" (msg_data m) = Some "python-fcm"
          /\ forall key, key <> "timestamp" -> key <> "server" ->
               Dict.get key (msg_data m)
               = match data with
                 | Some d => Dict.get key d
                 | None => None
                 end) as (H1 & H2 & H3).
  { subst m. cbn [msg_data]. split; [|split].
    - rewrite get_set_other by discriminate. apply get_set_same.
    - apply get_set_same.
    - intros key Hk1 Hk2. rewrite !get_set_other by assumption. apply Hmd. }
  destruct (fcm (outbox w) m) as [response| | |text] eqn:Hreply;
    exists (match fcm (outbox w) m with
            | Delivered response =>
                mkSendResult true (Some response) None (Some tok) None
            | InvalidArgumentError =>
                mkSendResult false None (Some "Invalid message format")
                             (Some tok) (Some "INVALID_ARGUMENT")
            | UnregisteredError =>
                mkSendResult false None (Some "Token not registered")
                             (Some tok) (Some "UNREGISTERED")
            | OtherError text =>
                mkSendResult false None (Some text) (Some tok)
                             (Some "UNKNOWN")
            end), m; rewrite Hreply;
    (split; [reflexivity|]);
    (split; [reflexivity|]); (split; [reflexivity|]);
    (split; [reflexivity|]); (split; [exact H1|]); (split; [exact H2|]);
    (split; [exact H3|]); (split; [reflexivity|]).
  - split; [split; [now eexists | reflexivity]|].
    split; [split; [discriminate | intros [H|H]; discriminate]|].
    discriminate.
  - split; [split; [discriminate | intros [? H]; discriminate]|].
    split; [split; [now left | reflexivity]|]. discriminate.
  - split; [split; [discriminate | intros [? H]; discriminate]|].
    split; [split; [now right | reflexivity]|]. discriminate.
  - split; [split; [discriminate | intros [? H]; discriminate]|].
    split; [split; [vm_compute; discriminate | intros [H|H]; discriminate]|].
    intros text' [= <-]. now split.
Qed.

Lemma send_message_shape (tok : string) (title body : PyVal) (w : World) :
  exists r m,
    send_message now fcm tok title body None w
    = (inr r, mkWorld (tokens w) (max_tokens w) (S (clock w))
                      (outbox w ++ [m]))
    /\ msg_token m = tok /\ msg_title m = title /\ msg_body m = body
    /\ res_token r = Some tok.
Proof.
  unfold send_message, bind, datetime_now, messaging_send.
  cbn [tokens max_tokens clock outbox].
  match goal with |- context [fcm ?h ?m] => destruct (fcm h m) end;
    do 2 eexists; (split; [reflexivity|]); repeat split.
Qed.

(** the loop of the broadcast: one message and one result per token, in
    the order of the list *)
Lemma collect_trace (l : list string) (title body : PyVal)
      (acc : list SendResult) (w : World) :
  exists rs ms,
    collect l (fun tok => send_message now fcm tok title body None) acc w
    = (inr (acc ++ rs),
       mkWorld (tokens w) (max_tokens w) (length l + clock w)%nat
               (outbox w ++ ms))
    /\ map res_token rs = map Some l
    /\ map msg_token ms = l
    /\ Forall (fun m => msg_title m = title /\ msg_body m = body) ms.
Proof.
  revert acc w. induction l as [|tok l IH]; intros acc w; simpl.
  - exists [], []. rewrite !app_nil_r. repeat split; auto. now destruct w.
  - unfold bind.
    destruct (send_message_shape tok title body w)
      as (r & m & -> & Hm1 & Hm2 & Hm3 & Hr).
    destruct (IH (acc ++ [r])
                (mkWorld (tokens w) (max_tokens w) (S (clock w))
                         (outbox w ++ [m])))
      as (rs & ms & -> & Hrs & Hms & Hall).
    exists (r :: rs), (m :: ms). cbn [tokens max_tokens clock outbox].
    rewrite <- !app_assoc. simpl. rewrite Nat.add_succ_r.
    split; [reflexivity|]. repeat split; try congruence.
    constructor; auto.
Qed.

(** X11.  A broadcast to a non-empty list of active tokens answers 200
    after handing the provider exactly one message per active token, in the
    order of [get_active_tokens], each with the title and body of the
    broadcast.  There is one result per token, [sent] and [failed] count the
    successful and the failed ones and add up to the number of active tokens,
    and the registry is unchanged. *)
Theorem broadcast_report (title body : PyVal) (l : list string) (w : World) :
  get_active_tokens w = (inr l, w) -> l <> [] ->
  exists rs ms text w',
    broadcast now fcm title body w
    = (inr (BroadcastBody (Z.of_nat (length (filter res_success rs)))
              (Z.of_nat (length (filter (fun r => negb (res_success r)) rs)))
              text (filter res_success rs)
              (filter (fun r => negb (res_success r)) rs), 200), w')
    /\ map res_token rs = map Some l
    /\ Z.of_nat (length (filter res_success rs))
       + Z.of_nat (length (filter (fun r => negb (res_success r)) rs))
       = Z.of_nat (length l)
    /\ outbox w' = outbox w ++ ms
    /\ map msg_token ms = l
    /\ Forall (fun m => msg_title m = title /\ msg_body m = body) ms
    /\ tokens w' = tokens w /\ max_tokens w' = max_tokens w
    /\ clock w' = (length l + clock w)%nat.
Proof.
  intros Hact Hne. unfold broadcast, bind. rewrite Hact.
  destruct l as [|tok l]; [contradiction|].
  destruct (collect_trace (tok :: l) title body [] w)
    as (rs & ms & -> & Hrs & Hms & Hall).
  exists rs, ms. do 2 eexists. split; [reflexivity|].
  cbn [tokens max_tokens clock outbox]. repeat split; auto.
  pose proof (length_filter_split res_success rs) as Hsplit.
  assert (length rs = length (tok :: l)) as Hlen.
  { rewrite <- (length_map res_token rs), Hrs. apply length_map. }
  lia.
Qed.

(** X12.  [send_push] never lets an exception out and answers 200, 400 or
    500.  It answers 200 exactly when the request body is a non-empty JSON
    object and some token is active; 500 exactly when reading the body raised
    or the body is a non-empty value that is not an object; in every case but
    200 the state is unchanged, so nothing was sent. *)
Theorem send_push_status (request : Exn + PyVal) (w : World) :
  exists body status w',
    send_push now fcm request w = (inr (body, status), w')
    /\ (status = 200 \/ status = 400 \/ status = 500)
    /\ (status = 200
        <-> (exists e d, request = inr (PyDict (e :: d)))
            /\ fst (get_active_tokens w) <> inr [])
    /\ (status = 500
        <-> (exists e, request = inl e)
            \/ (exists v, request = inr v /\ truthy v = true
                          /\ forall d, v <> PyDict d))
    /\ (status <> 200 -> w' = w).
Proof.
  unfold send_push, try_except, bind. rewrite get_active_tokens_run.
  cbn [fst].
  destruct request as [e|data]; cbn [ret raise].
  - do 3 eexists. split; [reflexivity|]. split; [auto|].
    split; [split; [discriminate | intros [(? & ? & H) _]; discriminate]|].
    split; [|reflexivity]. split; [intros _; left; now eexists | reflexivity].
  - destruct (truthy data) eqn:Ht; cbn [negb].
    + destruct data as [ |b|z|s|l|d]; try discriminate; cbn [py_get raise];
        try (do 3 eexists; split; [reflexivity|]; split; [auto|];
             split; [split; [discriminate
                            | intros [(? & ? & H) _]; discriminate]|];
             split; [|reflexivity];
             split; [intros _; right; eexists; split; [reflexivity|];
                     split; [exact Ht | discriminate]
                    | reflexivity]).
      destruct d as [|e d]; [discriminate|]. cbn [ret].
      match goal with
      | |- context [broadcast now fcm ?t ?b w] =>
          set (title := t); set (body := b)
      end.
      destruct (map token (filter is_active (Dict.values (tokens w))))
        as [|tok l] eqn:Hl.
      * unfold broadcast, bind. rewrite get_active_tokens_run, Hl.
        do 3 eexists. split; [reflexivity|]. split; [auto|].
        split; [split; [discriminate | intros [_ H]; now elim H]|].
        split; [|reflexivity].
        split; [discriminate|].
        intros [[? H] | (v & [= <-] & _ & H)]; [discriminate|].
        now elim (H (e :: d)).
      * destruct (broadcast_frame now fcm title body w)
          as (resp & w' & Hb & _).
        unfold broadcast, bind in Hb |- *.
        rewrite get_active_tokens_run, Hl in Hb |- *.
        destruct (collect_trace (tok :: l) title body [] w)
          as (rs & ms & Hc & _).
        rewrite Hc. do 3 eexists. split; [reflexivity|].
        split; [auto|].
        split; [split; [intros _; split; [now do 2 eexists | discriminate]
                       | reflexivity]|].
        split; [|intros H; now elim H].
        split; [discriminate|].
        intros [[? H] | (v & [= <-] & _ & H)]; [discriminate|].
        now elim (H (e :: d)).
    + do 3 eexists. split; [reflexivity|]. split; [auto|].
      split; [split; [discriminate|]|].
      * intros [(e & d & [= ->]) _]. discriminate.
      * split; [|reflexivity]. split; [discriminate|].
        intros [[? H] | (v & [= <-] & Hv & _)]; [discriminate|]. congruence.
Qed.

End SendMore.

(** * Properties of the other routes *)

Section RoutesFacts.
Variable now : nat -> string.
Variable fcm : list Message -> Message -> FcmReply.

Lemma register_token_run (k : string) (w : World) :
  k <> "" -> dict_ok (tokens w) ->
  exists w',
    register_token now (PyStr k) w
    = (inr (mkRegisterResult (negb (Dict.contains k (tokens w)))
                             (Dict.len (tokens w'))), w')
    /\ exists o, Dict.get k (tokens w') = Some o /\ is_active o = true.
Proof.
  intros Hk Hok. rewrite (register_token_str _ _ _ Hk).
  assert (forall d, Dict.get k d = None ->
            Dict.get k (d ++ [(k, new_FCMToken k (now (clock w))
                                               (now (clock w)))])
            = Some (new_FCMToken k (now (clock w)) (now (clock w))))
    as Hlast.
  { intros d Hd. rewrite (get_app_right _ _ _ Hd). simpl.
    now rewrite String.eqb_refl. }
  destruct (Dict.get k (tokens w)) as [o|] eqn:Hg.
  - rewrite (register_str_present _ _ _ _ Hg),
      (contains_get_some _ _ _ Hg).
    rewrite <- (len_set_present k (refreshed o (now (clock w))) _ _ Hg).
    exists (with_tokens (tick w)
              (Dict.set k (refreshed o (now (clock w))) (tokens w))).
    split; [reflexivity|].
    simpl. rewrite get_set_same. now eexists.
  - rewrite (contains_get_none _ _ Hg).
    destruct (Z.leb_spec (max_tokens w) (Dict.len (tokens w))) as [H|H].
    + rewrite (register_str_full _ _ _ Hok Hg H).
      exists (with_tokens (tick w)
                (filter entry_active (tokens w)
                 ++ [(k, new_FCMToken k (now (clock w)) (now (clock w)))])).
      split.
      * simpl. unfold Dict.len. now rewrite length_app, Nat2Z.inj_add.
      * simpl. rewrite Hlast by now apply get_filter_none. now eexists.
    + rewrite (register_str_room _ _ _ Hg H).
      exists (with_tokens (tick w)
                (tokens w
                 ++ [(k, new_FCMToken k (now (clock w)) (now (clock w)))])).
      split.
      * simpl. unfold Dict.len. now rewrite length_app, Nat2Z.inj_add.
      * simpl. rewrite (Hlast _ Hg). now eexists.
Qed.

(** the part of the two routes before the registry is called *)
Lemma route_prefix (request : Z + PyVal) :
  unreadable request
  \/ (exists v, request = inr v /\ truthy v = false)
  \/ (exists d, request = json_body d /\ truthy (PyDict d) = true).
Proof.
  destruct request as [e|v]; [left; left; now exists e|].
  destruct (truthy v) eqn:Ht; [|right; left; now exists v].
  destruct v; try (left; right; eexists; split; [reflexivity|];
                   split; [exact Ht | discriminate]).
  right. right. now exists d.
Qed.

Lemma unreadable_not_body (d : Dict.t PyVal) : ~ unreadable (json_body d).
Proof.
  intros [[e H] | (v & [= <-] & _ & H)]; [discriminate | now elim (H d)].
Qed.

Lemma unreadable_truthy (v : PyVal) :
  unreadable (inr v) -> truthy v = true /\ forall d, v <> PyDict d.
Proof. intros [[e H] | (v' & [= <-] & H)]; [discriminate | exact H]. Qed.

(** X13.  The route [/register] never lets an exception out.  It answers
    200 exactly when the body is a JSON object whose [token] is a non-empty
    string, and then it has run [register_token] on it and reports the size
    of the registry and whether the identifier was new; 500 exactly when the
    body could not be read as an object; 400 otherwise (no body, no token, or
    a token that is not a string).  Unless it answers 200 the state is
    unchanged. *)
Theorem route_register_status (request : Z + PyVal) (w : World) :
  dict_ok (tokens w) ->
  exists body status w',
    Routes.register_token now request w = (inr (body, status), w')
    /\ (status = 200 \/ status = 400 \/ status = 500)
    /\ (status = 200
        <-> exists d k, request = json_body d
                        /\ Dict.get "token" d = Some (PyStr k) /\ k <> "")
    /\ (status = 500 <-> unreadable request)
    /\ (status <> 200 -> w' = w)
    /\ forall d k,
         request = json_body d -> Dict.get "token" d = Some (PyStr k) ->
         k <> "" ->
         w' = snd (register_token now (PyStr k) w)
         /\ body = PyDict [("success", PyBool true);
                           ("message",
                            PyStr (if Dict.contains k (tokens w)
                                   then "Token updated"
                                   else "New token registered"));
                           ("total_tokens", PyInt (Dict.len (tokens w')))].
Proof.
  intros Hok.
  destruct (route_prefix request)
    as [Hun | [(v & -> & Hv) | (d & -> & Hd)]].
  - (* the body cannot be read as an object *)
    exists (Routes.failure "Internal server error"), 500, w.
    split.
    + destruct request as [e|v]; [reflexivity|].
      destruct (unreadable_truthy _ Hun) as [Ht Hnd].
      unfold Routes.register_token, Routes.rtry, Routes.rbind.
      cbn [Routes.get_json Routes.rret]. rewrite Ht. cbn [negb].
      destruct v; try reflexivity. now elim (Hnd d).
    + split; [auto|]. split; [|split; [tauto|split; [reflexivity|]]].
      * split; [discriminate|]. intros (d & k & -> & _).
        now elim (unreadable_not_body d).
      * intros d k ->. now elim (unreadable_not_body d).
  - (* no body *)
    exists (Routes.failure "No JSON data provided"), 400, w.
    split.
    + unfold Routes.register_token, Routes.rtry, Routes.rbind.
      cbn [Routes.get_json Routes.rret]. now rewrite Hv.
    + split; [auto|]. split; [|split; [|split; [reflexivity|]]].
      * split; [discriminate|]. intros (d & k & [= ->] & Hg & _).
        destruct d; [discriminate Hg | discriminate Hv].
      * split; [discriminate|]. intros Hun.
        destruct (unreadable_truthy _ Hun). congruence.
      * intros d k [= ->] Hg _.
        destruct d; [discriminate Hg | discriminate Hv].
  - (* a JSON object *)
    assert (forall resp w',
              (let tok := token_of d in
               if negb (truthy tok) then
                 (inr (Routes.failure "No token provided", 400), w)
               else register_answer (register_token now tok w))
              = (inr resp, w') ->
              Routes.register_token now (json_body d) w = (inr resp, w'))
      as Hrun.
    { intros resp w' <-.
      unfold Routes.register_token, Routes.rtry, Routes.rbind, json_body.
      cbn [Routes.get_json Routes.rret]. rewrite Hd. cbn [negb].
      unfold Routes.lift at 1. cbn [py_get ret]. fold (token_of d).
      cbv zeta. destruct (truthy (token_of d)); cbn [negb]; [|reflexivity].
      unfold Routes.lift.
      destruct (register_token now (token_of d) w) as [[[]|r] w1];
        reflexivity. }
    assert (forall msg,
              (forall k, Dict.get "token" d = Some (PyStr k) -> k = "") ->
              Routes.register_token now (json_body d) w
              = (inr (Routes.failure msg, 400), w) ->
              exists body status w',
                Routes.register_token now (json_body d) w
                = (inr (body, status), w')
                /\ (status = 200 \/ status = 400 \/ status = 500)
                /\ (status = 200
                    <-> exists d0 k, json_body d = json_body d0
                          /\ Dict.get "token" d0 = Some (PyStr k) /\ k <> "")
                /\ (status = 500 <-> unreadable (json_body d))
                /\ (status <> 200 -> w' = w)
                /\ forall d0 k,
                     json_body d = json_body d0 ->
                     Dict.get "token" d0 = Some (PyStr k) -> k <> "" ->
                     w' = snd (register_token now (PyStr k) w)
                     /\ body = PyDict
                          [("success", PyBool true);
                           ("message",
                            PyStr (if Dict.contains k (tokens w)
                                   then "Token updated"
                                   else "New token registered"));
                           ("total_tokens", PyInt (Dict.len (tokens w')))])
      as Hrefused.
    { intros msg Hno Heq. do 3 eexists. split; [exact Heq|].
      split; [auto|]. split; [|split; [|split; [reflexivity|]]].
      - split; [discriminate|]. intros (d0 & k & [= <-] & Hg & Hk).
        now elim Hk; apply Hno.
      - split; [discriminate|]. intros Hun.
        now elim (unreadable_not_body d).
      - intros d0 k [= <-] Hg Hk. now elim Hk; apply Hno. }
    unfold token_of in Hrun.
    destruct (Dict.get "token" d) as [tok|] eqn:Hg.
    + destruct (valid_or_invalid tok) as [Hi | (k & -> & Hk)].
      * (* a token that is empty or not a string *)
        destruct (truthy tok) eqn:Ht.
        -- apply (Hrefused "Invalid token provided").
           ++ intros k [= ->]. destruct Hi as [[= ->] | Hi];
                [reflexivity | discriminate].
           ++ apply Hrun. cbv zeta. cbn [negb].
              now rewrite (register_token_invalid _ _ _ Hi).
        -- apply (Hrefused "No token provided").
           ++ intros k [= ->]. destruct Hi as [[= ->] | Hi];
                [reflexivity | discriminate].
           ++ apply Hrun. reflexivity.
      * (* a non-empty string *)
        destruct (register_token_run k w Hk Hok) as (w' & Hreg & _).
        do 3 eexists. split.
        { apply Hrun. cbv zeta.
          replace (truthy (PyStr k)) with true; [cbn [negb]|].
          - rewrite Hreg. reflexivity.
          - simpl. destruct (String.eqb_spec k ""); [contradiction|].
            reflexivity. }
        split; [auto|]. split; [|split; [|split]].
        -- split; [intros _; now exists d, k | reflexivity].
        -- split; [discriminate|]. intros Hun.
           now elim (unreadable_not_body d).
        -- intros H; now elim H.
        -- intros d0 k0 [= <-] Hg0 _. rewrite Hg in Hg0.
           injection Hg0 as <-. rewrite Hreg. split; [reflexivity|].
           cbn [is_new token_count]. now destruct (Dict.contains k (tokens w)).
    + apply (Hrefused "No token provided"); [discriminate|].
      apply Hrun. reflexivity.
Qed.

(** *** /unregister *)

Lemma token_cases (d : Dict.t PyVal) :
  truthy (token_of d) = false
  \/ (exists k, Dict.get "token" d = Some (PyStr k) /\ k <> "")
  \/ (truthy (token_of d) = true /\ isinstance_str (token_of d) = false).
Proof.
  unfold token_of. destruct (Dict.get "token" d) as [v|]; [|now left].
  destruct (truthy v) eqn:Ht; [|now left].
  destruct v; try (right; right; now split).
  right. left. exists s. split; [reflexivity|].
  intros ->. discriminate.
Qed.

Lemma names_token_of (d : Dict.t PyVal) (k : string) :
  Dict.get "token" d = Some (PyStr k) -> k <> "" ->
  token_of d = PyStr k /\ truthy (PyDict d) = true
  /\ truthy (token_of d) = true.
Proof.
  intros Hg Hk. unfold token_of. rewrite Hg. split; [reflexivity|].
  split.
  - destruct d; [discriminate Hg | reflexivity].
  - simpl. now destruct (String.eqb_spec k "").
Qed.

Lemma unregister_run (d : Dict.t PyVal) (w : World) :
  truthy (PyDict d) = true ->
  Routes.unregister_token (json_body d) w
  = if negb (truthy (token_of d)) then
      (inr (Routes.failure "No token provided", 400), w)
    else
      match token_of d with
      | PyStr k =>
          match Dict.del k (tokens w) with
          | Some d' =>
              (inr (PyDict [("success", PyBool true);
                            ("message",
                             PyStr "Token unregistered successfully");
                            ("total_tokens", PyInt (Dict.len d'))], 200),
               with_tokens w d')
          | None =>
              (inr (PyDict [("success", PyBool false);
                            ("error",
                             PyStr "User not found or already unregistered");
                            ("message", PyStr "Token not found in database")],
                    404), w)
          end
      | _ =>
          (inr (Routes.failure "Internal server error during unregistration",
                500), w)
      end.
Proof.
  intros Hd.
  unfold Routes.unregister_token, Routes.rtry, Routes.rbind, json_body.
  cbn [Routes.get_json Routes.rret]. rewrite Hd. cbn [negb].
  unfold Routes.lift at 1. cbn [py_get ret]. fold (token_of d).
  destruct (truthy (token_of d)); cbn [negb]; [|reflexivity].
  destruct (token_of d) as [ |b|z|k|l|d0]; try reflexivity.
  cbn [Routes.remove_token_any]. unfold Routes.lift at 1.
  destruct (Dict.get k (tokens w)) as [o|] eqn:Hg.
  - destruct (remove_token_present _ _ _ Hg) as (d' & Hdel & ->).
    rewrite Hdel. reflexivity.
  - rewrite (remove_token_absent _ _ Hg), (del_absent _ _ Hg). reflexivity.
Qed.

(** X14.  The route [/unregister] never lets an exception out.  It answers
    200 exactly when the body names a stored identifier, and then exactly
    that record is gone and the reported size is one less; 404 exactly when
    it names a string that is not stored; 500 exactly when the body cannot be
    read as an object or its token is a non-empty value that is not a string;
    400 otherwise.  Unless it answers 200 the state is unchanged. *)
Theorem route_unregister_status (request : Z + PyVal) (w : World) :
  exists body status w',
    Routes.unregister_token request w = (inr (body, status), w')
    /\ (status = 200 \/ status = 400 \/ status = 404 \/ status = 500)
    /\ (status = 200
        <-> exists k, names_token request k
                      /\ Dict.contains k (tokens w) = true)
    /\ (status = 404
        <-> exists k, names_token request k
                      /\ Dict.contains k (tokens w) = false)
    /\ (status = 500 <-> unreadable request \/ odd_token request)
    /\ (status <> 200 -> w' = w)
    /\ forall k, names_token request k ->
         Dict.contains k (tokens w) = true ->
         Dict.del k (tokens w) = Some (tokens w')
         /\ Dict.len (tokens w') = Dict.len (tokens w) - 1
         /\ body = PyDict [("success", PyBool true);
                           ("message",
                            PyStr "Token unregistered successfully");
                           ("total_tokens", PyInt (Dict.len (tokens w')))].
Proof.
  destruct (route_prefix request)
    as [Hun | [(v & -> & Hv) | (d & -> & Hd)]].
  - exists (Routes.failure "Internal server error during unregistration"),
      500, w.
    split.
    + destruct request as [e|v]; [reflexivity|].
      destruct (unreadable_truthy _ Hun) as [Ht Hnd].
      unfold Routes.unregister_token, Routes.rtry, Routes.rbind.
      cbn [Routes.get_json Routes.rret]. rewrite Ht. cbn [negb].
      destruct v; try reflexivity. now elim (Hnd d).
    + assert (forall k, ~ names_token request k) as Hnn.
      { intros k (d & -> & _). now elim (unreadable_not_body d). }
      split; [auto|].
      split; [split; [discriminate | intros (k & H & _); now elim (Hnn k)]|].
      split; [split; [discriminate | intros (k & H & _); now elim (Hnn k)]|].
      split; [tauto|]. split; [reflexivity|].
      intros k H. now elim (Hnn k).
  - exists (Routes.failure "No JSON data provided"), 400, w.
    split.
    + unfold Routes.unregister_token, Routes.rtry, Routes.rbind.
      cbn [Routes.get_json Routes.rret]. now rewrite Hv.
    + assert (forall k, ~ names_token (inr v) k) as Hnn.
      { intros k (d & [= ->] & Hg & _).
        destruct d; [discriminate Hg | discriminate Hv]. }
      split; [auto|].
      split; [split; [discriminate | intros (k & H & _); now elim (Hnn k)]|].
      split; [split; [discriminate | intros (k & H & _); now elim (Hnn k)]|].
      split; [|split; [reflexivity | intros k H; now elim (Hnn k)]].
      split; [discriminate|]. intros [Hun | (d & [= ->] & Ht & _)].
      * destruct (unreadable_truthy _ Hun). congruence.
      * destruct d; [discriminate Ht | discriminate Hv].
  - pose proof (unregister_run d w Hd) as Hrun.
    assert (forall k k', names_token (json_body d) k ->
                         Dict.get "token" d = Some (PyStr k') -> k = k')
      as Hsame.
    { intros k k' (d0 & [= <-] & Hg & _) Hg'. congruence. }
    assert (~ unreadable (json_body d)) as Hread
        by apply unreadable_not_body.
    destruct (token_cases d) as [Hf | [(k & Hg & Hk) | [Ht Hns]]].
    + (* no token *)
      rewrite Hf in Hrun. cbn [negb] in Hrun.
      assert (forall k, ~ names_token (json_body d) k) as Hnn.
      { intros k (d0 & [= <-] & Hg & Hk).
        destruct (names_token_of _ _ Hg Hk) as (_ & _ & H). congruence. }
      do 3 eexists. split; [exact Hrun|]. split; [auto|].
      split; [split; [discriminate | intros (k & H & _); now elim (Hnn k)]|].
      split; [split; [discriminate | intros (k & H & _); now elim (Hnn k)]|].
      split; [|split; [reflexivity | intros k H; now elim (Hnn k)]].
      split; [discriminate|]. intros [Hun | (d0 & [= <-] & Ht & _)];
        [contradiction | congruence].
    + (* a non-empty string *)
      destruct (names_token_of _ _ Hg Hk) as (Htok & _ & Ht).
      rewrite Ht, Htok in Hrun. cbn [negb] in Hrun.
      assert (names_token (json_body d) k) as Hn by (now exists d).
      assert (~ odd_token (json_body d)) as Hodd.
      { intros (d0 & [= <-] & _ & H). rewrite Htok in H. discriminate. }
      destruct (Dict.get k (tokens w)) as [o|] eqn:Hgk.
      * destruct (del_present _ _ _ Hgk) as (d' & Hdel & Hlen & _).
        rewrite Hdel in Hrun.
        pose proof (contains_get_some _ _ _ Hgk) as Hc.
        do 3 eexists. split; [exact Hrun|]. split; [auto|].
        split; [split; [intros _; now exists k | reflexivity]|].
        split; [split; [discriminate|]|].
        { intros (k' & Hn' & Hc'). rewrite (Hsame _ _ Hn' Hg) in Hc'.
          congruence. }
        split; [split; [discriminate | tauto]|].
        split; [intros H; now elim H|].
        intros k' Hn' _. rewrite (Hsame _ _ Hn' Hg). cbn [tokens with_tokens].
        split; [exact Hdel|]. split; [|reflexivity].
        unfold Dict.len. rewrite Hlen. lia.
      * rewrite (del_absent _ _ Hgk) in Hrun.
        pose proof (contains_get_none _ _ Hgk) as Hc.
        do 3 eexists. split; [exact Hrun|]. split; [auto|].
        split; [split; [discriminate|]|].
        { intros (k' & Hn' & Hc'). rewrite (Hsame _ _ Hn' Hg) in Hc'.
          congruence. }
        split; [split; [intros _; now exists k | reflexivity]|].
        split; [split; [discriminate | tauto]|].
        split; [reflexivity|].
        intros k' Hn' Hc'. rewrite (Hsame _ _ Hn' Hg) in Hc'. congruence.
    + (* a token that is not a string *)
      rewrite Ht in Hrun. cbn [negb] in Hrun.
      assert (forall k, ~ names_token (json_body d) k) as Hnn.
      { intros k (d0 & [= <-] & Hg & Hk).
        destruct (names_token_of _ _ Hg Hk) as (H & _). rewrite H in Hns.
        discriminate. }
      assert (Routes.unregister_token (json_body d) w
              = (inr (Routes.failure
                        "Internal server error during unregistration", 500),
                 w)) as Hrun'.
      { rewrite Hrun. destruct (token_of d); try reflexivity. discriminate. }
      do 3 eexists. split; [exact Hrun'|]. split; [auto|].
      split; [split; [discriminate | intros (k & H & _); now elim (Hnn k)]|].
      split; [split; [discriminate | intros (k & H & _); now elim (Hnn k)]|].
      split; [|split; [reflexivity | intros k H; now elim (Hnn k)]].
      split; [intros _; right; now exists d | reflexivity].
Qed.

(** *** /tokens, /stats and / *)

Lemma map_through_anonymous {B : Type} (f : FCMToken -> B)
      (vs1 vs2 : list FCMToken) :
  (forall o1 o2, anonymous o1 = anonymous o2 -> f o1 = f o2) ->
  map anonymous vs1 = map anonymous vs2 -> map f vs1 = map f vs2.
Proof.
  intros Hf. revert vs2.
  induction vs1 as [|o1 vs1 IH]; intros [|o2 vs2]; simpl; try discriminate.
  - reflexivity.
  - intros [= H1 H2 H3 H4 H5 H6]. f_equal; [|now apply IH].
    apply Hf. unfold anonymous. congruence.
Qed.

Lemma filter_active_through_anonymous (vs1 vs2 : list FCMToken) :
  map anonymous vs1 = map anonymous vs2 ->
  length (filter is_active vs1) = length (filter is_active vs2).
Proof.
  revert vs2.
  induction vs1 as [|o1 vs1 IH]; intros [|o2 vs2]; simpl; try discriminate.
  - reflexivity.
  - intros [= H1 H2 H3 H4 H5 H6]. rewrite H5.
    destruct (is_active o2); simpl; [f_equal|]; now apply IH.
Qed.

Lemma token_info_through_anonymous (i : nat) (vs1 vs2 : list FCMToken) :
  map anonymous vs1 = map anonymous vs2 ->
  map Routes.token_info (Routes.enumerate i vs1)
  = map Routes.token_info (Routes.enumerate i vs2).
Proof.
  revert i vs2.
  induction vs1 as [|o1 vs1 IH]; intros i [|o2 vs2]; simpl; try discriminate.
  - reflexivity.
  - intros [= H1 H2 H3 H4 H5 H6]. rewrite H1, H2, H3, H4, H5. f_equal.
    now apply IH.
Qed.

Lemma enumerate_length {A : Type} (i : nat) (l : list A) :
  length (Routes.enumerate i l) = length l.
Proof.
  revert i. induction l as [|a l IH]; intros i; simpl; [reflexivity|].
  now rewrite IH.
Qed.

Lemma route_get_tokens_run (w : World) :
  Routes.get_tokens w
  = (inr (PyDict [("success", PyBool true);
                  ("stats",
                   Routes.stats_json
                     (mkStats (Dict.len (tokens w))
                        (Z.of_nat (length (filter is_active
                                             (Dict.values (tokens w)))))
                        (Dict.len (tokens w)
                         - Z.of_nat (length (filter is_active
                                               (Dict.values (tokens w)))))
                        (sumZ (map successful_sends (Dict.values (tokens w))))
                        (sumZ (map failed_sends (Dict.values (tokens w))))));
                  ("tokens",
                   PyList (map Routes.token_info
                             (Routes.enumerate 0 (Dict.values (tokens w)))))],
          200), w).
Proof.
  unfold Routes.get_tokens, Routes.rtry, Routes.rbind, Routes.lift,
    get_stats, get_tokens, bind, ret, Routes.rret.
  now rewrite sumZ_ones.
Qed.

(** X15.  The route [/tokens] always answers 200 and changes nothing.  It
    lists one entry per stored record, in the order of the registry, and the
    answer does not depend on the identifiers: two registries whose records
    agree on everything but [token] (and on the keys) get the same answer. *)
Theorem route_get_tokens_anonymous (w : World) :
  (exists stats infos,
     Routes.get_tokens w
     = (inr (PyDict [("success", PyBool true); ("stats", stats);
                     ("tokens", PyList infos)], 200), w)
     /\ length infos = length (tokens w))
  /\ forall w2,
       map anonymous (Dict.values (tokens w))
       = map anonymous (Dict.values (tokens w2)) ->
       fst (Routes.get_tokens w) = fst (Routes.get_tokens w2).
Proof.
  split.
  - rewrite route_get_tokens_run. do 2 eexists. split; [reflexivity|].
    rewrite length_map, enumerate_length. apply length_map.
  - intros w2 H. rewrite !route_get_tokens_run. cbn [fst].
    assert (length (tokens w) = length (tokens w2)) as Hlen.
    { rewrite <- (length_map snd (tokens w)), <- (length_map snd (tokens w2)).
      rewrite <- (length_map anonymous), <- (length_map anonymous (map _ _)).
      unfold Dict.values in H. now rewrite H. }
    unfold Dict.len. rewrite Hlen.
    rewrite (filter_active_through_anonymous _ _ H).
    rewrite (map_through_anonymous successful_sends _ _
               ltac:(unfold anonymous; congruence) H).
    rewrite (map_through_anonymous failed_sends _ _
               ltac:(unfold anonymous; congruence) H).
    now rewrite (token_info_through_anonymous 0 _ _ H).
Qed.

(** X16.  The route [/] always answers 200; it reads the clock once and
    changes nothing else.  The counts it reports are those [/stats] reports
    in the same state, and they are ordered: active tokens are between zero
    and the registered tokens, which are the number of stored records. *)
Theorem route_health_check_counts (w : World) :
  exists s,
    get_stats w = (inr s, w)
    /\ Routes.health_check now w
       = (inr (PyDict [("status", PyStr "🐍 Python FCM server running");
                       ("timestamp", PyStr (now (clock w)));
                       ("version", PyStr "2.0.0");
                       ("registered_tokens", PyInt (total_tokens s));
                       ("active_tokens", PyInt (active_tokens s))], 200),
          tick w)
    /\ Routes.get_stats w
       = (inr (PyDict [("success", PyBool true);
                       ("stats", Routes.stats_json s)], 200), w)
    /\ total_tokens s = Z.of_nat (length (tokens w))
    /\ 0 <= active_tokens s <= total_tokens s.
Proof.
  eexists. split; [reflexivity|]. split; [reflexivity|].
  split; [reflexivity|]. cbn [total_tokens active_tokens].
  split; [reflexivity|]. rewrite sumZ_ones. unfold Dict.len.
  pose proof (length_filter_le is_active (Dict.values (tokens w))) as H.
  unfold Dict.values in H at 2. rewrite length_map in H. lia.
Qed.

(** *** Who a broadcast reaches *)

Lemma active_key_iff (d : Dict.t FCMToken) (k : string) :
  dict_ok d ->
  In k (Dict.keys (filter entry_active d))
  <-> exists o, Dict.get k d = Some o /\ is_active o = true.
Proof.
  intros Hok. rewrite <- mem_str_In, <- contains_mem_keys.
  unfold Dict.contains. rewrite (get_filter _ _ _ Hok).
  destruct (Dict.get k d) as [o|]; unfold entry_active; simpl.
  - split.
    + intros H. destruct (is_active o) eqn:Ha; [now exists o | discriminate].
    + intros (o' & [= <-] & H). now rewrite H.
  - split; [discriminate | intros (o' & H & _); discriminate].
Qed.

Lemma broadcast_outbox (title body : PyVal) (w : World) :
  exists ms,
    outbox (snd (broadcast now fcm title body w)) = outbox w ++ ms
    /\ map msg_token ms
       = map token (filter is_active (Dict.values (tokens w))).
Proof.
  unfold broadcast, bind. rewrite get_active_tokens_run.
  destruct (map token (filter is_active (Dict.values (tokens w))))
    as [|tok l] eqn:Hl.
  - exists []. simpl. now rewrite app_nil_r.
  - destruct (collect_trace now fcm (tok :: l) title body [] w)
      as (rs & ms & -> & _ & Hms & _).
    exists ms. now split.
Qed.

(** X17.  A broadcast on a well-formed registry hands the provider one
    message for each identifier that is stored and active, and none for any
    other: the tokens of the messages it adds to the outbox are the active
    keys, in the order of the registry, without repetition. *)
Theorem broadcast_recipients (title body : PyVal) (w : World) :
  registry_ok (tokens w) ->
  exists ms,
    outbox (snd (broadcast now fcm title body w)) = outbox w ++ ms
    /\ map msg_token ms = Dict.keys (filter entry_active (tokens w))
    /\ nodupb (map msg_token ms) = true
    /\ forall k, In k (map msg_token ms)
                 <-> exists o, Dict.get k (tokens w) = Some o
                               /\ is_active o = true.
Proof.
  intros [Hok Hd].
  destruct (broadcast_outbox title body w) as (ms & Hout & Hms).
  rewrite (active_tokens_keys _ Hd) in Hms.
  exists ms. split; [exact Hout|]. split; [exact Hms|]. rewrite Hms. split.
  - exact (dict_ok_filter entry_active _ Hok).
  - intros k. now apply active_key_iff.
Qed.

Lemma addressed_iff (title body : PyVal) (k : string) (w : World) :
  registry_ok (tokens w) ->
  (exists ms, outbox (snd (broadcast now fcm title body w)) = outbox w ++ ms
              /\ In k (map msg_token ms))
  <-> exists o, Dict.get k (tokens w) = Some o /\ is_active o = true.
Proof.
  intros [Hok Hd].
  destruct (broadcast_outbox title body w) as (ms & Hout & Hms).
  rewrite (active_tokens_keys _ Hd) in Hms.
  rewrite <- (active_key_iff _ k Hok), <- Hms. split.
  - intros (ms' & Hout' & Hin). rewrite Hout in Hout'.
    apply app_inv_head in Hout'. now subst.
  - intros Hin. now exists ms.
Qed.

(** X18.  The life of an identifier as a broadcast sees it, on a
    well-formed registry: once registered it is addressed by the next
    broadcast; once removed it is not; and once [update_token_stats] has
    recorded for it a failure with code UNREGISTERED or INVALID_ARGUMENT it is
    not addressed either. *)
Theorem broadcast_after (title body : PyVal) (k : string) (w : World) :
  registry_ok (tokens w) ->
  let addressed w1 :=
    exists ms, outbox (snd (broadcast now fcm title body w1)) = outbox w1 ++ ms
               /\ In k (map msg_token ms) in
  (k <> "" -> addressed (snd (register_token now (PyStr k) w)))
  /\ ~ addressed (snd (remove_token k w))
  /\ forall r, res_token r = Some k -> res_success r = false ->
               deactivating r = true ->
               ~ addressed (snd (update_token_stats now [r] w)).
Proof.
  intros Hreg. cbv zeta. split; [|split].
  - intros Hk.
    apply addressed_iff;
      [exact (run_registry_ok now fcm [OpRegister (PyStr k)] w Hreg)|].
    destruct (register_token_run k w Hk (proj1 Hreg)) as (w' & -> & Ho).
    exact Ho.
  - rewrite addressed_iff
      by exact (run_registry_ok now fcm [OpRemove k] w Hreg).
    intros (o & Hg & _).
    destruct (Dict.get k (tokens w)) as [o0|] eqn:Hg0.
    + destruct (remove_token_present _ _ _ Hg0) as (d & Hdel & Hrun).
      rewrite Hrun in Hg. simpl in Hg.
      rewrite (get_del_same _ _ _ (proj1 Hreg) Hdel) in Hg. discriminate.
    + rewrite (remove_token_absent _ _ Hg0) in Hg. simpl in Hg. congruence.
  - intros r Hr Hs Hdeact.
    rewrite addressed_iff
      by exact (run_registry_ok now fcm [OpUpdateStats [r]] w Hreg).
    intros (o & Hg & Ha).
    rewrite update_token_stats_single in Hg.
    destruct (Dict.get k (tokens w)) as [o0|] eqn:Hg0.
    + rewrite (update_one_present _ _ _ _ _ Hr Hg0) in Hg. simpl in Hg.
      rewrite get_set_same in Hg. injection Hg as <-.
      unfold recorded in Ha. rewrite Hs, Hdeact in Ha. discriminate.
    + rewrite update_one_absent in Hg by (intros k' Hk'; congruence).
      simpl in Hg. congruence.
Qed.

End RoutesFacts.

(** ** Concrete runs of the further properties *)

Lemma world_A_inactive_ok : registry_ok (tokens world_A_inactive).
Proof.
  exact (run_registry_ok clock0 fcm0
           (register_AB ++ [OpUpdateStats [unregistered_failure "tok-A"]])
           (init_world 2) (conj eq_refl (Forall_nil _))).
Qed.

Lemma world_AB_ok : registry_ok (tokens world_AB).
Proof.
  exact (run_registry_ok clock0 fcm0 register_AB (init_world 2)
           (conj eq_refl (Forall_nil _))).
Qed.

(** removing [tok-A] from a registry that holds it *)
Lemma remove_token_outcome_witness :
  dict_ok (tokens world_AB)
  /\ exists b w',
       remove_token "tok-A" world_AB = (inr b, w')
       /\ b = true /\ Dict.get "tok-A" (tokens w') = None.
Proof.
  split; [reflexivity|].
  destruct (remove_token_outcome "tok-A" world_AB eq_refl)
    as (b & w' & Hrun & Hb & _ & Hg & _).
  exists b, w'. split; [exact Hrun|]. split; [|exact Hg].
  rewrite Hb. reflexivity.
Defined.

(** [tok-A] registered in the empty registry and removed again *)
Lemma register_then_remove_witness :
  Dict.get "tok-A" (tokens (init_world 10000)) = None
  /\ exists r w1 w2,
       register_token clock0 (PyStr "tok-A") (init_world 10000) = (inr r, w1)
       /\ remove_token "tok-A" w1 = (inr true, w2)
       /\ tokens w2 = tokens (init_world 10000).
Proof.
  split; [reflexivity|].
  destruct (register_then_remove clock0 "tok-A" (init_world 10000))
    as (r & w1 & w2 & H1 & H2 & _ & H3 & _).
  - discriminate.
  - reflexivity.
  - reflexivity.
  - exists r, w1, w2. split; [exact H1|]. split; [exact H2|].
    apply H3. vm_compute. reflexivity.
Defined.

(** registering [tok-C] at capacity keeps the active [tok-B] *)
Lemma register_token_spares_active_witness :
  Dict.get "tok-B" (tokens world_A_inactive)
  = Some (mkFCMToken "tok-B" "1" "1" 0 0 true)
  /\ Dict.get "tok-B"
       (tokens (snd (register_token clock0 (PyStr "tok-C") world_A_inactive)))
     = Some (mkFCMToken "tok-B" "1" "1" 0 0 true).
Proof.
  split; [reflexivity|].
  apply (proj1 (register_token_spares_active clock0 (PyStr "tok-C") "tok-B"
                  (mkFCMToken "tok-B" "1" "1" 0 0 true) world_A_inactive
                  eq_refl ltac:(discriminate) eq_refl)).
  reflexivity.
Defined.

(** the clean-up of a registry with one inactive record *)
Lemma cleanup_inactive_tokens_outcome_witness :
  dict_ok (tokens world_A_inactive)
  /\ exists w',
       _cleanup_inactive_tokens world_A_inactive = (inr tt, w')
       /\ tokens w' = filter entry_active (tokens world_A_inactive).
Proof.
  split; [reflexivity|].
  destruct (cleanup_inactive_tokens_outcome world_A_inactive eq_refl)
    as (w' & H1 & H2 & _).
  exists w'. now split.
Defined.

(** the records of a reachable state carry their keys *)
Lemma reachable_registry_ok_witness :
  reachable clock0 fcm0 2 world_A_inactive
  /\ forall k o, Dict.get k (tokens world_A_inactive) = Some o -> token o = k.
Proof.
  assert (reachable clock0 fcm0 2 world_A_inactive) as Hr.
  { eexists. reflexivity. }
  split; [exact Hr|]. intros k o Hg.
  exact (proj1 (proj2 (reachable_registry_ok clock0 fcm0 2 world_A_inactive
                         Hr) k o Hg)).
Defined.

(** the active list of a registry with [tok-A] inactive *)
Lemma get_active_tokens_outcome_witness :
  registry_ok (tokens world_A_inactive)
  /\ exists l, get_active_tokens world_A_inactive = (inr l, world_A_inactive)
               /\ nodupb l = true.
Proof.
  split; [exact world_A_inactive_ok|].
  destruct (get_active_tokens_outcome world_A_inactive world_A_inactive_ok)
    as (l & H1 & _ & H2 & _).
  exists l. now split.
Defined.

(** one failure and one success recorded for [tok-A] *)
Lemma update_token_stats_counts_witness :
  Dict.get "tok-A" (tokens world_AB)
  = Some (mkFCMToken "tok-A" "0" "0" 0 0 true)
  /\ exists o',
       Dict.get "tok-A"
         (tokens (snd (update_token_stats clock0
                         [unregistered_failure "tok-A"; delivered_to "tok-A"]
                         world_AB)))
       = Some o'
       /\ successful_sends o' = 1 /\ failed_sends o' = 1
       /\ is_active o' = false.
Proof.
  split; [reflexivity|].
  destruct (update_token_stats_counts clock0 "tok-A"
              (mkFCMToken "tok-A" "0" "0" 0 0 true)
              [unregistered_failure "tok-A"; delivered_to "tok-A"]
              world_AB eq_refl)
    as (o' & H1 & H2 & H3 & H4 & _).
  exists o'. split; [exact H1|].
  split; [rewrite H2; reflexivity|].
  split; [rewrite H3; reflexivity | rewrite H4; reflexivity].
Defined.

(** the totals after a failure for [tok-A] and a success for an unknown
    identifier *)
Lemma update_token_stats_totals_witness :
  exists s s',
    get_stats world_AB = (inr s, world_AB)
    /\ get_stats (snd (update_token_stats clock0
                         [unregistered_failure "tok-A"; delivered_to "tok-Z"]
                         world_AB))
       = (inr s', snd (update_token_stats clock0
                         [unregistered_failure "tok-A"; delivered_to "tok-Z"]
                         world_AB))
    /\ total_successful_sends s' = total_successful_sends s
    /\ total_failed_sends s' = total_failed_sends s + 1.
Proof.
  destruct (update_token_stats_totals clock0
              [unregistered_failure "tok-A"; delivered_to "tok-Z"] world_AB)
    as (s & s' & H1 & H2 & _ & H3 & H4).
  exists s, s'. split; [exact H1|]. split; [exact H2|].
  split; [rewrite H3; apply Z.add_0_r | rewrite H4; reflexivity].
Defined.

(** two registrations with a maximum of one *)
Lemma served_registry_all_active_witness :
  Forall served register_AB
  /\ forall o, In o (Dict.values (tokens world_over)) -> is_active o = true.
Proof.
  assert (Forall served register_AB) as Hs.
  { repeat constructor. }
  split; [exact Hs|].
  exact (proj1 (served_registry_all_active clock0 fcm0 1 register_AB Hs)).
Defined.

(** a message for [tok-B], which the sample provider does not know *)
Lemma send_message_outcome_witness :
  exists r m,
    send_message clock0 fcm0 "tok-B" (PyStr "Hi") (PyStr "Body")
                 (Some [("server", "mine")]) world_AB
    = (inr r, mkWorld (tokens world_AB) (max_tokens world_AB)
                      (S (clock world_AB)) (outbox world_AB ++ [m]))
    /\ Dict.get "server" (msg_data m) = Some "python-fcm"
    /\ res_token r = Some "tok-B".
Proof.
  destruct (send_message_outcome clock0 fcm0 "tok-B" (PyStr "Hi")
              (PyStr "Body") (Some [("server", "mine")]) world_AB)
    as (r & m & H1 & _ & _ & _ & _ & H2 & _ & H3 & _).
  exists r, m. split; [exact H1|]. now split.
Defined.

(** a broadcast to [tok-A] and [tok-B] *)
Lemma broadcast_report_witness :
  get_active_tokens world_AB = (inr ["tok-A"; "tok-B"], world_AB)
  /\ exists ms,
       outbox (snd (broadcast clock0 fcm0 (PyStr "Hi") (PyStr "Body")
                              world_AB))
       = outbox world_AB ++ ms
       /\ map msg_token ms = ["tok-A"; "tok-B"].
Proof.
  split; [reflexivity|].
  destruct (broadcast_report clock0 fcm0 (PyStr "Hi") (PyStr "Body")
              ["tok-A"; "tok-B"] world_AB eq_refl ltac:(discriminate))
    as (rs & ms & text & w' & Hrun & _ & _ & Hout & Hms & _).
  exists ms. rewrite Hrun. now split.
Defined.

(** a request without a body *)
Lemma send_push_status_witness :
  exists body status w',
    send_push clock0 fcm0 (inr PyNone) world_AB = (inr (body, status), w')
    /\ (status <> 200 -> w' = world_AB).
Proof.
  destruct (send_push_status clock0 fcm0 (inr PyNone) world_AB)
    as (body & status & w' & H1 & _ & _ & _ & H2).
  exists body, status, w'. now split.
Defined.

(** [/register] with a number as token *)
Lemma route_register_status_witness :
  dict_ok (tokens world_AB)
  /\ exists body status w',
       Routes.register_token clock0 (request_token (PyInt 5)) world_AB
       = (inr (body, status), w')
       /\ (status <> 200 -> w' = world_AB).
Proof.
  split; [reflexivity|].
  destruct (route_register_status clock0 (request_token (PyInt 5)) world_AB
              eq_refl)
    as (body & status & w' & H1 & _ & _ & _ & H2 & _).
  exists body, status, w'. now split.
Defined.

(** [/unregister] with a number as token *)
Lemma route_unregister_status_witness :
  exists body status w',
    Routes.unregister_token (request_token (PyInt 5)) world_AB
    = (inr (body, status), w')
    /\ (status = 500
        <-> unreadable (request_token (PyInt 5))
            \/ odd_token (request_token (PyInt 5))).
Proof.
  destruct (route_unregister_status (request_token (PyInt 5)) world_AB)
    as (body & status & w' & H1 & _ & _ & _ & H2 & _).
  exists body, status, w'. now split.
Defined.

(** the listing of a registry and of itself *)
Lemma route_get_tokens_anonymous_witness :
  exists stats infos,
    Routes.get_tokens world_A_inactive
    = (inr (PyDict [("success", PyBool true); ("stats", stats);
                    ("tokens", PyList infos)], 200), world_A_inactive)
    /\ length infos = length (tokens world_A_inactive).
Proof.
  exact (proj1 (route_get_tokens_anonymous world_A_inactive)).
Defined.

(** the counts of [/] on a registry with one inactive record *)
Lemma route_health_check_counts_witness :
  exists s,
    get_stats world_A_inactive = (inr s, world_A_inactive)
    /\ 0 <= active_tokens s <= total_tokens s.
Proof.
  destruct (route_health_check_counts clock0 world_A_inactive)
    as (s & H1 & _ & _ & _ & H2).
  exists s. now split.
Defined.

(** a broadcast reaches [tok-B] only *)
Lemma broadcast_recipients_witness :
  registry_ok (tokens world_A_inactive)
  /\ exists ms,
       outbox (snd (broadcast clock0 fcm0 (PyStr "Hi") (PyStr "Body")
                              world_A_inactive))
       = outbox world_A_inactive ++ ms
       /\ map msg_token ms = ["tok-B"].
Proof.
  split; [exact world_A_inactive_ok|].
  destruct (broadcast_recipients clock0 fcm0 (PyStr "Hi") (PyStr "Body")
              world_A_inactive world_A_inactive_ok)
    as (ms & H1 & H2 & _).
  exists ms. split; [exact H1|]. rewrite H2. reflexivity.
Defined.

(** after registering [tok-C] a broadcast has a message for it *)
Lemma broadcast_after_witness :
  registry_ok (tokens world_AB)
  /\ exists ms,
       outbox (snd (broadcast clock0 fcm0 (PyStr "Hi") (PyStr "Body")
                      (snd (register_token clock0 (PyStr "tok-C") world_AB))))
       = outbox (snd (register_token clock0 (PyStr "tok-C") world_AB)) ++ ms
       /\ In "tok-C" (map msg_token ms).
Proof.
  split; [exact world_AB_ok|].
  apply (proj1 (broadcast_after clock0 fcm0 (PyStr "Hi") (PyStr "Body")
                  "tok-C" world_AB world_AB_ok)).
  discriminate.
Defined.
